(** * Controlled gates of Cirq: construction, application, decomposition

    A shallow embedding of [cirq-core/cirq/ops/controlled_gate.py] and of the
    part of the control-value model it relies on, followed by the properties
    of the constructor, of [on], of [__pow__], of [_resolve_parameters_], of
    [_json_dict_] and of [_decompose_with_context_]. *)

From Stdlib Require Import ZArith Lia.
From stdpp Require Import base decidable option list strings pretty gmap sets.

Local Open Scope Z_scope.

(** ** Exceptions and the error monad

    Every exception the module raises itself is a [ValueError]; the
    constructor says which [raise] statement produced it.  [NotInList] is the
    [ValueError] of [list.remove], [IndexError] and [NegativeDimension] are
    those of indexing and of [np.zeros], and [ExternalError] stands for an
    exception raised by a collaborator that is not part of the module
    ([validate_args], the [on] of another gate). *)

Inductive Exception : Type :=
| CannotControlMeasurement
| CannotControlNonUnitaryChannel
| NumQubitsMismatch
| ControlQidShapeMismatch
| ControlValueOutOfRange
| EmptyQubits
| NotInList
| IndexError
| NegativeDimension
| ExternalError (code : nat).

#[global] Instance Exception_eq_dec : EqDecision Exception.
Proof. solve_decision. Defined.

Inductive Result (A : Type) : Type :=
| Ok (a : A)
| Raise (e : Exception).
Arguments Ok {A} a.
Arguments Raise {A} e.

#[global] Instance Result_ret : MRet Result := λ A a, Ok a.
#[global] Instance Result_bind : MBind Result := λ A B k r,
  match r with
  | Ok a => k a
  | Raise e => Raise e
  end.

Definition raises {A} (r : Result A) : Prop := ∃ e, r = Raise e.
Definition succeeds {A} (r : Result A) : Prop := ∃ a, r = Ok a.

(** A protocol call that answers [NotImplemented] is not an error. *)
Inductive Supported (A : Type) : Type :=
| NotImplemented
| Value (a : A).
Arguments NotImplemented {A}.
Arguments Value {A} a.

(** ** Control values *)

Module cv.

(** Modelled from the spec: the control-value classes of
    [cirq.ops.control_values], which the module imports as [cv] and which
    are not among the sources.  A product of sums is the ordered sequence
    of the per-qudit sets of accepted values; a sum of products is an
    ordered sequence of conjunctions, each a full-length tuple of sets of
    accepted values. *)
Inductive ControlValues : Type :=
| ProductOfSums (qubit_sums : list (gset Z))
| SumOfProducts (conjunctions : list (list (gset Z))).

#[global] Instance ControlValues_eq_dec : EqDecision ControlValues.
Proof. solve_decision. Defined.

(** Modelled from the spec: one entry of a raw sequence of control values,
    an accepted value or a collection of accepted values. *)
Inductive ControlSpec : Type :=
| OneValue (v : Z)
| Values (vs : gset Z).

Definition accepted (s : ControlSpec) : gset Z :=
  match s with
  | OneValue v => {[ v ]}
  | Values vs => vs
  end.

(** Modelled from the spec: the constructor [cv.ProductOfSums(data)] on a
    raw sequence, which is not among the sources. *)
Definition product_of_sums (data : list ControlSpec) : ControlValues :=
  ProductOfSums (accepted <$> data).

(** Modelled from the spec: the conjunctions of a condition; a product of
    sums is one conjunction. *)
Definition conjunctions_of (c : ControlValues) : list (list (gset Z)) :=
  match c with
  | ProductOfSums sums => [sums]
  | SumOfProducts cs => cs
  end.

(** Modelled from the spec: [_num_qubits_] of the control values; every
    conjunction has one entry per control qudit. *)
Definition num_qubits (c : ControlValues) : nat :=
  match c with
  | ProductOfSums sums => length sums
  | SumOfProducts cs => length (default [] (head cs))
  end.

(** Modelled from the spec: the type invariant of a sum of products; there
    is a conjunction, and the conjunctions are full-length tuples over the
    same control qudits. *)
Definition well_formed (c : ControlValues) : Prop :=
  match c with
  | ProductOfSums _ => True
  | SumOfProducts cs =>
      cs ≠ [] ∧ Forall (λ k, length k = length (default [] (head cs))) cs
  end.

(** Modelled from the spec: the values of a set are within a dimension. *)
Definition within (d : Z) (s : gset Z) : bool :=
  bool_decide (set_Forall (λ v, 0 ≤ v < d) s).

(** Modelled from the spec: qudit [i] of the conjunction accepts only
    values of [[0, shape[i])]. *)
Fixpoint in_range (sums : list (gset Z)) (qid_shape : list Z) : bool :=
  match sums, qid_shape with
  | s :: sums', d :: shape' => within d s && in_range sums' shape'
  | _, _ => true
  end.

(** Modelled from the spec: [validate(qid_shape)] of the control values,
    which fails with the out-of-range condition. *)
Definition validate (c : ControlValues) (qid_shape : list Z) : Result unit :=
  if forallb (λ k, in_range k qid_shape) (conjunctions_of c)
  then Ok tt
  else Raise ControlValueOutOfRange.

(** Modelled from the spec: every conjunction of the one followed by every
    conjunction of the other. *)
Definition pairwise (xs ys : list (list (gset Z))) : list (list (gset Z)) :=
  x ← xs; y ← ys; [x ++ y].

(** Modelled from the spec: [A & B] of the control values, the independent
    conditions over the concatenation of the two qudit ranges.  Each operand
    keeps its own sets and conjunctions. *)
Definition combine (a b : ControlValues) : ControlValues :=
  match a, b with
  | ProductOfSums x, ProductOfSums y => ProductOfSums (x ++ y)
  | _, _ => SumOfProducts (pairwise (conjunctions_of a) (conjunctions_of b))
  end.

(** Modelled from the spec: the Cartesian product of the accepted sets of
    one conjunction. *)
Fixpoint assignments (sums : list (gset Z)) : list (list Z) :=
  match sums with
  | [] => [[]]
  | s :: sums' => v ← elements s; t ← assignments sums'; [v :: t]
  end.

(** Modelled from the spec: [expand()] of the control values, every
    assignment of the control qudits that satisfies the condition, each one
    once. *)
Definition expand (c : ControlValues) : list (list Z) :=
  match c with
  | ProductOfSums sums => assignments sums
  | SumOfProducts cs => remove_dups (cs ≫= assignments)
  end.

(** The [control_values] argument of a constructor: an object of the
    class, or a raw sequence with one entry per control. *)
Inductive Argument : Type :=
| Object (c : ControlValues)
| Sequence (data : list ControlSpec).

(** A sum of products of one conjunction is the product of sums of that
    conjunction. *)
Definition simplify (c : ControlValues) : ControlValues :=
  match c with
  | SumOfProducts [conjunction] => ProductOfSums conjunction
  | _ => c
  end.

(** The object an argument stands for. *)
Definition resolve (a : Argument) : ControlValues :=
  match a with
  | Object c => simplify c
  | Sequence data => product_of_sums data
  end.

Definition well_formed_argument (a : option Argument) : Prop :=
  match a with
  | Some (Object c) => well_formed c
  | _ => True
  end.

(** Some qudit accepts a value outside its dimension. *)
Definition out_of_range (c : ControlValues) (qid_shape : list Z) : Prop :=
  ∃ (k : list (gset Z)) (i : nat) (s : gset Z) (d v : Z),
    k ∈ conjunctions_of c ∧ k !! i = Some s ∧ qid_shape !! i = Some d ∧
    v ∈ s ∧ ¬ (0 ≤ v < d).

(** Modelled from the spec: [is_trivial] of the control values; every
    control accepts exactly the value 1. *)
Definition is_trivial (c : ControlValues) : bool :=
  bool_decide (c = ProductOfSums (replicate (num_qubits c) {[ 1 ]})).

End cv.

Infix "&&&" := cv.combine (at level 40, left associativity).


(** ** Arrays

    The three operations of [numpy] the decomposition uses, on an array kept
    as the list of its entries in row-major order, which is what
    [flatten] returns. *)

Module np.

Definition size (shape : list Z) : nat :=
  foldr (λ d n, Z.to_nat d * n)%nat 1%nat shape.

(** [np.zeros(shape=shape)] *)
Definition zeros {A} (zero : A) (shape : list Z) : Result (list A) :=
  if forallb (λ d, bool_decide (0 ≤ d)) shape
  then Ok (replicate (size shape) zero)
  else Raise NegativeDimension.

(** An index along an axis of length [d]; a negative index counts from
    the end. *)
Definition index (d i : Z) : Result nat :=
  if decide (0 ≤ i < d) then Ok (Z.to_nat i)
  else if decide (- d ≤ i < 0) then Ok (Z.to_nat (i + d))
  else Raise IndexError.

(** [a[hot] = x] for a tuple [hot] of integers: a tuple shorter than the
    number of axes selects a sub-array, all of which is set. *)
Fixpoint setitem {A} (shape hot : list Z) (x : A) (a : list A) : Result (list A) :=
  match hot with
  | [] => Ok (replicate (length a) x)
  | i :: hot' =>
      match shape with
      | [] => Raise IndexError
      | d :: shape' =>
          j ← index d i;
          let block := size shape' in
          inner ← setitem shape' hot' x (take block (drop (j * block) a));
          Ok (take (j * block) a ++ inner ++ drop (S j * block) a)
      end
  end.

(** A tuple with an index within each axis. *)
Definition valid_index (shape hot : list Z) : Prop :=
  Forall2 (λ i d, 0 ≤ i < d) hot shape.

(** The position in the flattened array of the entry at [hot]. *)
Fixpoint ravel (shape hot : list Z) : nat :=
  match shape, hot with
  | d :: shape', i :: hot' => (Z.to_nat i * size shape' + ravel shape' hot')%nat
  | _, _ => 0%nat
  end.

End np.

(** ** Qudits *)

Record Qid : Type := { qid_key : nat; dimension : Z }.

#[global] Instance Qid_eq_dec : EqDecision Qid.
Proof. solve_decision. Defined.

(** ** Gates and the controlled gate *)

Section controlled_gate.

(** The gates of the other classes. *)
Context {BaseGate : Type} `{!EqDecision BaseGate}.

(** A gate is a gate of another class or an instance of [ControlledGate];
    [isinstance(g, ControlledGate)] is the match on [Controlled]. *)
Inductive Gate : Type :=
| Plain (b : BaseGate)
| Controlled (sub : Gate) (values : cv.ControlValues) (shape : list Z).

#[global] Instance Gate_eq_dec : EqDecision Gate.
Proof. solve_decision. Defined.

(** The three private fields of a [ControlledGate], behind the properties
    of the same names. *)
Record ControlledGate : Type := {
  sub_gate : Gate;
  control_values : cv.ControlValues;
  control_qid_shape : list Z
}.

#[global] Instance ControlledGate_eq_dec : EqDecision ControlledGate.
Proof. solve_decision. Defined.

Definition as_gate (g : ControlledGate) : Gate :=
  Controlled (sub_gate g) (control_values g) (control_qid_shape g).

Definition num_controls (g : ControlledGate) : nat :=
  length (control_qid_shape g).

(** The protocols of [cirq.protocols] that the constructor consults. *)
Context (is_measurement has_mixture is_parameterized : Gate → bool).

Definition _validate_sub_object (sub_object : Gate) : Result unit :=
  if is_measurement sub_object then Raise CannotControlMeasurement
  else if negb (has_mixture sub_object) && negb (is_parameterized sub_object)
  then Raise CannotControlNonUnitaryChannel
  else Ok tt.

Definition __init__ (sub_gate : Gate) (num_controls : option Z)
    (control_values : option cv.Argument)
    (control_qid_shape : option (list Z)) : Result ControlledGate :=
  _validate_sub_object sub_gate ;;
  (* Simplify a single SumOfProducts *)
  let control_values :=
    match control_values with
    | Some (cv.Object (cv.SumOfProducts [conjunction])) =>
        Some (cv.Sequence (cv.Values <$> conjunction))
    | _ => control_values
    end in
  let num_controls :=
    match num_controls with
    | Some n => n
    | None =>
        match control_values with
        | Some (cv.Object c) => Z.of_nat (cv.num_qubits c)
        | Some (cv.Sequence data) => Z.of_nat (length data)
        | None =>
            match control_qid_shape with
            | Some shape => Z.of_nat (length shape)
            | None => 1
            end
        end
    end in
  let control_values :=
    match control_values with
    | Some c => c
    | None => cv.Sequence (replicate (Z.to_nat num_controls) (cv.Values {[ 1 ]}))
    end in
  (* Convert to ProductOfSums if the input is a tuple of control values *)
  let control_values :=
    match control_values with
    | cv.Object c => c
    | cv.Sequence data => cv.product_of_sums data
    end in
  if decide (num_controls ≠ Z.of_nat (cv.num_qubits control_values))
  then Raise NumQubitsMismatch
  else
    let control_qid_shape :=
      match control_qid_shape with
      | Some shape => shape
      | None => replicate (Z.to_nat num_controls) 2
      end in
    if decide (num_controls ≠ Z.of_nat (length control_qid_shape))
    then Raise ControlQidShapeMismatch
    else
      (* Verify control values not out of bounds *)
      cv.validate control_values control_qid_shape ;;
      (* Flatten nested ControlledGates *)
      match sub_gate with
      | Controlled inner_sub inner_values inner_shape =>
          Ok {| sub_gate := inner_sub;
                control_values := control_values &&& inner_values;
                control_qid_shape := control_qid_shape ++ inner_shape |}
      | Plain _ =>
          Ok {| sub_gate := sub_gate;
                control_values := control_values;
                control_qid_shape := control_qid_shape |}
      end.

(** ** Operations *)

(** Modelled from the spec: the operation values.  A gate operation is a
    gate of another class applied to qudits; a controlled operation binds
    control qudits, a sub-operation and control values.  The classes are in
    [cirq.ops.gate_operation] and [cirq.ops.controlled_operation], which
    are not among the sources; the checks of their constructors are not
    modelled. *)
Inductive Operation : Type :=
| GateOperation (gate : Gate) (qubits : list Qid)
| ControlledOperation (controls : list Qid) (sub_operation : Operation)
    (values : cv.ControlValues).

(** An [OP_TREE] is an operation or a sequence of trees. *)
#[warnings="-register-all"]
Inductive OP_TREE : Type :=
| Op (op : Operation)
| Ops (trees : list OP_TREE).

(** [op_tree.transform_op_tree(root, op_transformation)] with the default
    arguments: the transformation is applied at the leaves. *)
Fixpoint transform_op_tree (f : Operation → Operation) (root : OP_TREE) : OP_TREE :=
  match root with
  | Op op => Op (f op)
  | Ops trees => Ops (map (transform_op_tree f) trees)
  end.

(** [Gate.validate_args] and the [on] of the gates of the other classes
    are inherited or overridden outside the module. *)
Context (validate_args : Gate → list Qid → Result unit).
Context (plain_on : BaseGate → list Qid → Result Operation).

(** [gate.on] on the given qubits, dispatched on the class of [gate]; the second
    case is [ControlledGate.on]. *)
Fixpoint gate_on (gate : Gate) (qubits : list Qid) : Result Operation :=
  match gate with
  | Plain b => plain_on b qubits
  | Controlled sub values shape =>
      if decide (length qubits = 0%nat) then Raise EmptyQubits
      else
        validate_args gate qubits ;;
        sub_operation ← gate_on sub (drop (length shape) qubits);
        Ok (ControlledOperation (take (length shape) qubits) sub_operation values)
  end.

Definition on (self : ControlledGate) (qubits : list Qid) : Result Operation :=
  gate_on (as_gate self) qubits.

Definition _value_equality_values_ (self : ControlledGate) :
    Gate * nat * cv.ControlValues * list Z :=
  (sub_gate self, num_controls self, control_values self, control_qid_shape self).

(** [self == other] as [value_equality] defines it: an object of another
    class is never equal. *)
Definition __eq__ (self : ControlledGate) (other : Gate) : bool :=
  match other with
  | Plain _ => false
  | Controlled sub values shape =>
      bool_decide (_value_equality_values_ self =
        _value_equality_values_
          {| sub_gate := sub; control_values := values; control_qid_shape := shape |})
  end.

(** ** Exponentiation and parameter resolution *)

Context {Exponent Resolver : Type}.
Context (pow : Gate → Exponent → Supported Gate).
Context (resolve_parameters : Gate → Resolver → bool → Gate).

Definition __pow__ (self : ControlledGate) (exponent : Exponent) :
    Result (Supported ControlledGate) :=
  match pow (sub_gate self) exponent with
  | NotImplemented => Ok NotImplemented
  | Value new_sub_gate =>
      powered ← __init__ new_sub_gate (Some (Z.of_nat (num_controls self)))
                   (Some (cv.Object (control_values self)))
                   (Some (control_qid_shape self));
      Ok (Value powered)
  end.

Definition _resolve_parameters_ (self : ControlledGate) (resolver : Resolver)
    (recursive : bool) : Result ControlledGate :=
  let new_sub_gate := resolve_parameters (sub_gate self) resolver recursive in
  __init__ new_sub_gate (Some (Z.of_nat (num_controls self)))
    (Some (cv.Object (control_values self)))
    (Some (control_qid_shape self)).

(** ** Serialization payload *)

Inductive JsonField : Type :=
| ControlValuesField (c : cv.ControlValues)
| ShapeField (shape : list Z)
| GateField (g : Gate).

Definition _json_dict_ (self : ControlledGate) : gmap string JsonField :=
  <["control_values" := ControlValuesField (control_values self)]>
    (<["control_qid_shape" := ShapeField (control_qid_shape self)]>
       (<["sub_gate" := GateField (sub_gate self)]> ∅)).

(** Construction from a payload: the three entries are passed back to the
    constructor as keyword arguments, [num_controls] is left out.  A
    payload without one of the entries, or with an entry of another
    type, is not the payload of a controlled gate. *)
Definition from_json_dict (d : gmap string JsonField) : option (Result ControlledGate) :=
  match d !! "control_values", d !! "control_qid_shape", d !! "sub_gate" with
  | Some (ControlValuesField c), Some (ShapeField shape), Some (GateField g) =>
      Some (__init__ g None (Some (cv.Object c)) (Some shape))
  | _, _, _ => None
  end.

(** ** Decomposition *)

Context {DecompositionContext Matrix Angle : Type}.
(** [sub_gate.controlled(num_controls, control_values, control_qid_shape)] *)
Context (controlled : Gate → nat → cv.ControlValues → list Z → Gate).
Context (decompose_once_with_qubits :
  Gate → list Qid → DecompositionContext → Supported OP_TREE).
Context (extracting_global_phases : DecompositionContext → DecompositionContext).
(** [op.controlled_by(controls..., control_values=control_values)] *)
Context (controlled_by : Operation → list Qid → cv.ControlValues → Operation).
Context (has_unitary : Gate → bool) (num_qubits : Gate → nat).
Context (unitary : Gate → Matrix).
(** [np.angle(u[0, 0])] and the angle [0.0] *)
Context (angle : Matrix → Angle) (zero : Angle).
Context (DiagonalGate : list Angle → BaseGate).
(** [common_gates.X(qubit)] *)
Context (X : Qid → Operation).
Context (decompose_multi_controlled_rotation :
  Matrix → list Qid → Qid → list Operation).

(** [l.remove(x)]: the first occurrence goes; an absent [x] raises. *)
Fixpoint list_remove (x : Qid) (l : list Qid) : Result (list Qid) :=
  match l with
  | [] => Raise NotInList
  | y :: l' =>
      if decide (x = y) then Ok l'
      else l'' ← list_remove x l'; Ok (y :: l'')
  end.

(** The loop of case 2 over [zip(self.control_values, controls)], with
    the two lists it updates. *)
Fixpoint invert_loop (pairs : list (gset Z * Qid))
    (invert_ops : list Operation) (control_qubits : list Qid) :
    Result (list Operation * list Qid) :=
  match pairs with
  | [] => Ok (invert_ops, control_qubits)
  | (cvals, cqbit) :: pairs' =>
      if decide (cvals = {[ 0 ]})
      then invert_loop pairs' (invert_ops ++ [X cqbit]) control_qubits
      else if decide (cvals = {[ 0; 1 ]})
      then
        control_qubits' ← list_remove cqbit control_qubits;
        invert_loop pairs' invert_ops control_qubits'
      else invert_loop pairs' invert_ops control_qubits
  end.

(** The loop of case 1 over [self.control_values.expand()]. *)
Fixpoint hot_loop (shape : list Z) (hots : list (list Z)) (a : Angle)
    (rads : list Angle) : Result (list Angle) :=
  match hots with
  | [] => Ok rads
  | hot :: hots' => rads' ← np.setitem shape hot a rads; hot_loop shape hots' a rads'
  end.

(** The last resort of the decomposition, from the comment
    "Finally try brute-force on the unitary" to the end of the method;
    [control_qubits] is the list that the method binds in its first line. *)
Definition brute_force (self : ControlledGate) (qubits : list Qid) :
    Result (Supported OP_TREE) :=
  let control_qubits := take (num_controls self) qubits in
  if has_unitary (sub_gate self)
     && forallb (λ q, bool_decide (dimension q = 2)) qubits
  then
    let n_qubits := num_qubits (sub_gate self) in
    if decide (n_qubits = 0%nat)
    then
      (* Case 1: global phase *)
      let a := angle (unitary (sub_gate self)) in
      rads ← np.zeros zero (control_qid_shape self);
      rads ← hot_loop (control_qid_shape self)
               (cv.expand (control_values self)) a rads;
      op ← plain_on (DiagonalGate rads) qubits;
      Ok (Value (Op op))
    else
      match control_values self with
      | cv.ProductOfSums sums =>
          if decide (n_qubits = 1%nat)
          then
            (* Case 2: multi-controlled single-qubit gate *)
            '(invert_ops, control_qubits) ←
              invert_loop (zip sums (take (num_controls self) qubits))
                [] control_qubits;
            match last qubits with
            | None => Raise IndexError
            | Some target =>
                let decomposed_ops :=
                  decompose_multi_controlled_rotation
                    (unitary (sub_gate self)) control_qubits target in
                Ok (Value (Ops (Op <$> invert_ops ++ decomposed_ops ++ invert_ops)))
            end
          else Ok NotImplemented
      | cv.SumOfProducts _ => Ok NotImplemented
      end
  else Ok NotImplemented.

Definition _decompose_with_context_ (self : ControlledGate) (qubits : list Qid)
    (context : DecompositionContext) : Result (Supported OP_TREE) :=
  let controlled_sub_gate :=
    controlled (sub_gate self) (num_controls self) (control_values self)
      (control_qid_shape self) in
  (* Prefer the subgate controlled version if available *)
  if negb (__eq__ self controlled_sub_gate)
  then op ← gate_on controlled_sub_gate qubits; Ok (Value (Op op))
  else
    (* Try decomposing the subgate next *)
    match decompose_once_with_qubits (sub_gate self)
            (drop (num_controls self) qubits)
            (extracting_global_phases context) with
    | Value result =>
        Ok (Value (transform_op_tree
              (λ op, controlled_by op (take (num_controls self) qubits)
                       (control_values self))
              result))
    | NotImplemented => brute_force self qubits
    end.

(** ** The construction contract in the words of the specification *)

(** The construction-time normalization: a controlled sub-gate is
    absorbed, its controls follow the new ones. *)
Definition absorb (sub : Gate) (values : cv.ControlValues) (shape : list Z) :
    ControlledGate :=
  match sub with
  | Controlled inner_sub inner_values inner_shape =>
      {| sub_gate := inner_sub;
         control_values := values &&& inner_values;
         control_qid_shape := shape ++ inner_shape |}
  | Plain _ =>
      {| sub_gate := sub; control_values := values; control_qid_shape := shape |}
  end.

(** The number of controls a construction declares: the one given, else
    the one of the control values, else the one of the shape, else 1. *)
Definition declared_num_controls (num_controls : option Z)
    (control_values : option cv.Argument)
    (control_qid_shape : option (list Z)) : Z :=
  match num_controls, control_values, control_qid_shape with
  | Some n, _, _ => n
  | None, Some a, _ => Z.of_nat (cv.num_qubits (cv.resolve a))
  | None, None, Some shape => Z.of_nat (length shape)
  | None, None, None => 1
  end.

(** The control values a construction declares: the ones given, else
    the value 1 for each control. *)
Definition declared_control_values (num_controls : option Z)
    (control_values : option cv.Argument)
    (control_qid_shape : option (list Z)) : cv.ControlValues :=
  match control_values with
  | Some a => cv.resolve a
  | None =>
      cv.ProductOfSums
        (replicate
           (Z.to_nat (declared_num_controls num_controls None control_qid_shape))
           {[ 1 ]})
  end.

(** The shape a construction declares: the one given, else a two-level
    qudit for each control. *)
Definition declared_control_qid_shape (num_controls : option Z)
    (control_values : option cv.Argument)
    (control_qid_shape : option (list Z)) : list Z :=
  match control_qid_shape with
  | Some shape => shape
  | None =>
      replicate
        (Z.to_nat (declared_num_controls num_controls control_values control_qid_shape))
        2
  end.

(** The entities that constructions produce: from a gate of another
    class, or from an entity produced before. *)
Inductive constructed : ControlledGate → Prop :=
| constructed_plain b num_controls control_values control_qid_shape self :
    cv.well_formed_argument control_values →
    __init__ (Plain b) num_controls control_values control_qid_shape = Ok self →
    constructed self
| constructed_nested inner num_controls control_values control_qid_shape self :
    constructed inner →
    cv.well_formed_argument control_values →
    __init__ (as_gate inner) num_controls control_values control_qid_shape = Ok self →
    constructed self.

(** What every construction establishes: the sub-gate is a validated gate
    of another class, there is a dimension for each control qudit, the
    accepted values are within the dimensions, and the control values are
    in simplified form. *)
Definition invariant (self : ControlledGate) : Prop :=
  (∃ b, sub_gate self = Plain b) ∧
  _validate_sub_object (sub_gate self) = Ok tt ∧
  cv.num_qubits (control_values self) = length (control_qid_shape self) ∧
  cv.validate (control_values self) (control_qid_shape self) = Ok tt ∧
  cv.well_formed (control_values self) ∧
  cv.simplify (control_values self) = control_values self.

(** The controls that the reading of case 2 with a flipped qubit as "a
    flip pair, not a control input" would pass to the synthesis: those
    whose accepted set is neither [{0}] nor the full domain. *)
Definition strictly_on_one (sums : list (gset Z)) (controls : list Qid) : list Qid :=
  (filter (λ p, p.1 ≠ {[ 0 ]} ∧ p.1 ≠ {[ 0; 1 ]}) (zip sums controls)).*2.

(** The flips of case 2 and the controls it passes to the synthesis. *)
Definition flips (sums : list (gset Z)) (controls : list Qid) : list Operation :=
  X <$> (filter (λ p, p.1 = {[ 0 ]}) (zip sums controls)).*2.

Definition constrained (sums : list (gset Z)) (controls : list Qid) : list Qid :=
  (filter (λ p, p.1 ≠ {[ 0; 1 ]}) (zip sums controls)).*2
  ++ drop (length sums) controls.

(** ** The other methods of the class *)

(** [protocols.qid_shape] of a gate of another class. *)
Context (plain_qid_shape : BaseGate → list Z).

(** [protocols.qid_shape(gate)], dispatched on the class of [gate]; the
    second case is [ControlledGate._qid_shape_]. *)
Fixpoint qid_shape (gate : Gate) : list Z :=
  match gate with
  | Plain b => plain_qid_shape b
  | Controlled sub values shape => shape ++ qid_shape sub
  end.

Definition _qid_shape_ (self : ControlledGate) : list Z :=
  control_qid_shape self ++ qid_shape (sub_gate self).

Definition _has_unitary_ (self : ControlledGate) : bool :=
  has_unitary (sub_gate self).

Definition _has_mixture_ (self : ControlledGate) : bool :=
  has_mixture (sub_gate self).

Definition _is_parameterized_ (self : ControlledGate) : bool :=
  is_parameterized (sub_gate self).

(** [line_qubit.LineQid.for_gate(gate)], and [protocols.apply_unitary],
    [protocols.unitary] and [protocols.mixture] of an operation with the
    default [NotImplemented]. *)
Context (for_gate : Gate → list Qid).
Context {Mixture ApplyUnitaryArgs Array : Type}.
Context (operation_apply_unitary : Operation → ApplyUnitaryArgs → Supported Array).
Context (operation_unitary : Operation → Supported Matrix).
Context (operation_mixture : Operation → Supported Mixture).

Definition _apply_unitary_ (self : ControlledGate) (args : ApplyUnitaryArgs) :
    Result (Supported Array) :=
  let qubits := for_gate (as_gate self) in
  op ← gate_on (sub_gate self) (drop (num_controls self) qubits);
  let c_op :=
    ControlledOperation (take (num_controls self) qubits) op (control_values self) in
  Ok (operation_apply_unitary c_op args).

Definition _unitary_ (self : ControlledGate) : Result (Supported Matrix) :=
  let qubits := for_gate (as_gate self) in
  op ← gate_on (sub_gate self) (drop (num_controls self) qubits);
  let c_op :=
    ControlledOperation (take (num_controls self) qubits) op (control_values self) in
  Ok (operation_unitary c_op).

Definition _mixture_ (self : ControlledGate) : Result (Supported Mixture) :=
  let qubits := for_gate (as_gate self) in
  op ← gate_on (sub_gate self) (drop (num_controls self) qubits);
  let c_op :=
    ControlledOperation (take (num_controls self) qubits) op (control_values self) in
  Ok (operation_mixture c_op).

(** *** Diagram information *)

Context {LabelMap DiagramExponent : Type}.

Record CircuitDiagramInfoArgs : Type := {
  known_qubit_count : option Z;
  known_qubits : option (list Qid);
  use_unicode_characters : bool;
  precision : option Z;
  label_map : option LabelMap
}.

Record CircuitDiagramInfo : Type := {
  wire_symbols : list string;
  exponent : DiagramExponent
}.

(** [protocols.circuit_diagram_info] of a gate with the default [None], and
    of the control values. *)
Context (gate_circuit_diagram_info :
  Gate → CircuitDiagramInfoArgs → option CircuitDiagramInfo).
Context (control_values_circuit_diagram_info : cv.ControlValues → CircuitDiagramInfo).

(** The arguments that [_circuit_diagram_info_] hands to the sub-gate. *)
Definition sub_args (self : ControlledGate) (args : CircuitDiagramInfoArgs) :
    CircuitDiagramInfoArgs :=
  {| known_qubit_count :=
       match known_qubit_count args with
       | Some count => Some (count - Z.of_nat (num_controls self))
       | None => None
       end;
     known_qubits :=
       match known_qubits args with
       | Some qubits => Some (drop (num_controls self) qubits)
       | None => None
       end;
     use_unicode_characters := use_unicode_characters args;
     precision := precision args;
     label_map := label_map args |}.

Definition _circuit_diagram_info_ (self : ControlledGate)
    (args : CircuitDiagramInfoArgs) : Supported CircuitDiagramInfo :=
  match gate_circuit_diagram_info (sub_gate self) (sub_args self args) with
  | None => NotImplemented
  | Some sub_info =>
      let cv_info := control_values_circuit_diagram_info (control_values self) in
      Value {| wire_symbols := wire_symbols cv_info ++ wire_symbols sub_info;
               exponent := exponent sub_info |}
  end.

(** *** The printed form *)

(** [repr] of a gate of any class and of the control values. *)
Context (gate_repr : Gate → string) (control_values_repr : cv.ControlValues → string).

(** [repr] of a tuple of integers. *)
Definition repr_tuple (t : list Z) : string :=
  match t with
  | [] => "()"
  | [x] => "(" +:+ pretty x +:+ ",)"
  | _ => "(" +:+ String.concat ", " (pretty <$> t) +:+ ")"
  end.

Definition __repr__ (self : ControlledGate) : string :=
  if bool_decide (control_qid_shape self = [2]) && cv.is_trivial (control_values self)
  then "cirq.ControlledGate(sub_gate=" +:+ gate_repr (sub_gate self) +:+ ")"
  else if cv.is_trivial (control_values self)
          && bool_decide (list_to_set (control_qid_shape self) = ({[ 2 ]} : gset Z))
  then "cirq.ControlledGate(sub_gate=" +:+ gate_repr (sub_gate self) +:+ ", "
       +:+ "num_controls=" +:+ pretty (num_controls self) +:+ ")"
  else "cirq.ControlledGate(sub_gate=" +:+ gate_repr (sub_gate self) +:+ ", "
       +:+ "control_values=" +:+ control_values_repr (control_values self) +:+ ","
       +:+ "control_qid_shape=" +:+ repr_tuple (control_qid_shape self) +:+ ")".

(** The text of a call of the constructor with the keyword arguments that
    are given, in the layout of [__repr__]. *)
Definition call_text (sub : Gate) (num_controls : option nat)
    (control_values : option cv.ControlValues)
    (control_qid_shape : option (list Z)) : string :=
  "cirq.ControlledGate(sub_gate=" +:+ gate_repr sub
  +:+ match num_controls with
      | Some n => ", num_controls=" +:+ pretty n
      | None => ""
      end
  +:+ match control_values with
      | Some c => ", control_values=" +:+ control_values_repr c
      | None => ""
      end
  +:+ match control_qid_shape with
      | Some shape => ",control_qid_shape=" +:+ repr_tuple shape
      | None => ""
      end
  +:+ ")".

(** *** Operation trees *)

(** The operations of a tree, from left to right. *)
Fixpoint leaves (root : OP_TREE) : list Operation :=
  match root with
  | Op op => [op]
  | Ops trees => concat (map leaves trees)
  end.

(** ** Decomposing again *)

(** Modelled from the spec: the gate and the qubits of an operation, as the
    engine that decomposes operations reads them.  The gate of a controlled
    operation is the controlled gate of the gate of its sub-operation, with
    the control values of the operation and the dimensions of its control
    qubits; its qubits are the controls followed by those of the
    sub-operation.  The operation classes are not among the sources. *)
Fixpoint operation_gate (op : Operation) : Gate :=
  match op with
  | GateOperation gate qubits => gate
  | ControlledOperation controls sub_operation values =>
      Controlled (operation_gate sub_operation) values (dimension <$> controls)
  end.

Fixpoint operation_qubits (op : Operation) : list Qid :=
  match op with
  | GateOperation gate qubits => qubits
  | ControlledOperation controls sub_operation values =>
      controls ++ operation_qubits sub_operation
  end.

(** The gate under all the controls of a gate. *)
Fixpoint core (g : Gate) : BaseGate :=
  match g with
  | Plain b => b
  | Controlled sub _ _ => core sub
  end.

(** An operation is below a gate, for a given size of the gates of the
    other classes, when the engine has nothing more to ask this class about
    it, or asks about a controlled gate over a smaller gate. *)
Definition below (rank : BaseGate → nat) (g : Gate) (op : Operation) : Prop :=
  match operation_gate op with
  | Plain _ => True
  | Controlled sub _ _ => (rank (core sub) < rank (core g))%nat
  end.

(** The outcomes of the operations of a decomposition, from left to right:
    [None] when one of them does not end, the exception of the first one
    that raises, else all the operations obtained. *)
Fixpoint collect (outcomes : list (option (Result (list Operation)))) :
    option (Result (list Operation)) :=
  match outcomes with
  | [] => Some (Ok [])
  | None :: _ => None
  | Some (Raise e) :: _ => Some (Raise e)
  | Some (Ok ops) :: outcomes' =>
      match collect outcomes' with
      | None => None
      | Some (Raise e) => Some (Raise e)
      | Some (Ok ops') => Some (Ok (ops ++ ops'))
      end
  end.

(** Modelled from the spec: the engine that decomposes again what a
    decomposition returns ([protocols.decompose], which is not among the
    sources), as far as this class is concerned.  An operation of a gate of
    another class is kept: decomposing it is left to that class.  An
    operation of a controlled gate is decomposed with [ControlledGate]'s
    method on the qubits of the operation; it is kept when the method
    answers [NotImplemented], and every operation of a decomposition is
    decomposed again.  [None] stands for a recursion that the fuel did not
    exhaust. *)
Fixpoint redecompose (fuel : nat) (context : DecompositionContext)
    (op : Operation) : option (Result (list Operation)) :=
  match fuel with
  | O => None
  | S fuel' =>
      match operation_gate op with
      | Plain _ => Some (Ok [op])
      | Controlled sub values shape =>
          match _decompose_with_context_
                  {| sub_gate := sub; control_values := values;
                     control_qid_shape := shape |}
                  (operation_qubits op) context with
          | Raise e => Some (Raise e)
          | Ok NotImplemented => Some (Ok [op])
          | Ok (Value tree) => collect (redecompose fuel' context <$> leaves tree)
          end
      end
  end.

End controlled_gate.

(** ** A small gate set

    A concrete family of gates on which the definitions can be evaluated:
    angles and matrices are integers (an angle in some unit, and the code
    of a matrix). *)

Module Demo.

Inductive BaseGate : Type :=
| XGate
| CXGate
| Rotation (k : Z)
| GlobalPhase (k : Z)
| Symbolic
| Measure
| Reset
| Diagonal (angles : list Z)
| MultiControlledRotation (u : Z).

#[global] Instance BaseGate_eq_dec : EqDecision BaseGate.
Proof. solve_decision. Defined.

Definition is_measurement (g : @Gate BaseGate) : bool :=
  bool_decide (g = Plain Measure).

Definition has_mixture (g : @Gate BaseGate) : bool :=
  match g with
  | Plain Reset | Plain Symbolic | Plain Measure => false
  | _ => true
  end.

Definition is_parameterized (g : @Gate BaseGate) : bool :=
  bool_decide (g = Plain Symbolic).

Definition has_unitary (g : @Gate BaseGate) : bool :=
  match g with
  | Plain (XGate | CXGate | Rotation _ | GlobalPhase _ | Diagonal _) => true
  | _ => false
  end.

Definition num_qubits (g : @Gate BaseGate) : nat :=
  match g with
  | Plain (GlobalPhase _) => 0
  | Plain CXGate => 2
  | _ => 1
  end.

Definition unitary (g : @Gate BaseGate) : Z :=
  match g with
  | Plain (Rotation k) | Plain (GlobalPhase k) => k
  | _ => 0
  end.

Definition validate_args (g : @Gate BaseGate) (qubits : list Qid) : Result unit :=
  if bool_decide (NoDup qubits) then Ok tt else Raise (ExternalError 0).

Definition plain_on (b : BaseGate) (qubits : list Qid) : Result (@Operation BaseGate) :=
  Ok (GateOperation (Plain b) qubits).

Definition pow (g : @Gate BaseGate) (exponent : Z) : Supported (@Gate BaseGate) :=
  match g with
  | Plain (Rotation k) => Value (Plain (Rotation (k * exponent)))
  | Plain (GlobalPhase k) => Value (Plain (GlobalPhase (k * exponent)))
  | _ => NotImplemented
  end.

Definition resolve_parameters (g : @Gate BaseGate) (resolver : Z) (recursive : bool) :
    @Gate BaseGate :=
  match g with
  | Plain Symbolic => Plain (Rotation resolver)
  | _ => g
  end.

(** The generic wrapper, except for the controlled-X of one control on 1. *)
Definition controlled (g : @Gate BaseGate) (num_controls : nat)
    (values : cv.ControlValues) (shape : list Z) : @Gate BaseGate :=
  if bool_decide (g = Plain XGate ∧ values = cv.ProductOfSums [ {[ 1 ]} ] ∧ shape = [2])
  then Plain CXGate
  else Controlled g values shape.

Definition decompose_once_with_qubits (g : @Gate BaseGate) (qubits : list Qid)
    (context : unit) : Supported (@OP_TREE BaseGate) :=
  NotImplemented.

Definition controlled_by (op : @Operation BaseGate) (controls : list Qid)
    (values : cv.ControlValues) : @Operation BaseGate :=
  ControlledOperation controls op values.

Definition X (q : Qid) : @Operation BaseGate := GateOperation (Plain XGate) [q].

Definition decompose_multi_controlled_rotation (u : Z) (controls : list Qid)
    (target : Qid) : list (@Operation BaseGate) :=
  [GateOperation (Plain (MultiControlledRotation u)) (controls ++ [target])].

Definition q (i : nat) : Qid := {| qid_key := i; dimension := 2 |}.

Definition construct :=
  __init__ is_measurement has_mixture is_parameterized.

Definition decompose :=
  _decompose_with_context_ validate_args plain_on controlled
    decompose_once_with_qubits (λ c, c) controlled_by has_unitary num_qubits
    unitary (λ u : Z, u) 0 Diagonal X decompose_multi_controlled_rotation.

Definition power := __pow__ is_measurement has_mixture is_parameterized pow.

Definition resolve :=
  _resolve_parameters_ is_measurement has_mixture is_parameterized resolve_parameters.

Definition apply := on validate_args plain_on.

Definition from_json := from_json_dict is_measurement has_mixture is_parameterized.

(** A rotation controlled by a qubit on 0 and a qubit on 1. *)
Definition zero_one_controlled : @ControlledGate BaseGate :=
  {| sub_gate := Plain (Rotation 3);
     control_values := cv.ProductOfSums [ {[ 0 ]}; {[ 1 ]} ];
     control_qid_shape := [2; 2] |}.

(** The X gate controlled by a qubit on 1, a global phase controlled by a
    qubit on 1, and a rotation controlled by a qubit on 1. *)
Definition controlled_x : @ControlledGate BaseGate :=
  {| sub_gate := Plain XGate;
     control_values := cv.ProductOfSums [ {[ 1 ]} ];
     control_qid_shape := [2] |}.

Definition controlled_phase : @ControlledGate BaseGate :=
  {| sub_gate := Plain (GlobalPhase 7);
     control_values := cv.ProductOfSums [ {[ 1 ]} ];
     control_qid_shape := [2] |}.

Definition controlled_rotation : @ControlledGate BaseGate :=
  {| sub_gate := Plain (Rotation 3);
     control_values := cv.ProductOfSums [ {[ 1 ]} ];
     control_qid_shape := [2] |}.

Definition plain_qid_shape (b : BaseGate) : list Z :=
  match b with
  | GlobalPhase _ => []
  | CXGate => [2; 2]
  | _ => [2]
  end.

(** The line qudits 0, 1, ... with the dimensions of the gate. *)
Definition for_gate (g : @Gate BaseGate) : list Qid :=
  imap (λ i d, {| qid_key := i; dimension := d |}) (qid_shape plain_qid_shape g).

(** The unitary of an operation is known when it is a controlled rotation;
    it is the code of the rotation. *)
Definition operation_unitary (op : @Operation BaseGate) : Supported Z :=
  match op with
  | ControlledOperation _ (GateOperation (Plain (Rotation k)) _) _ => Value k
  | _ => NotImplemented
  end.

Definition gate_repr (g : @Gate BaseGate) : string :=
  match g with
  | Plain XGate => "cirq.X"
  | Plain (Rotation k) => "cirq.rz(" +:+ pretty k +:+ ")"
  | _ => "gate"
  end.

Definition control_values_repr (c : cv.ControlValues) : string :=
  "cirq.ProductOfSums(...)".

(** The rotation decomposes into two half rotations, every other gate
    does not decompose. *)
Definition decompose_rotation (g : @Gate BaseGate) (qubits : list Qid)
    (context : unit) : Supported (@OP_TREE BaseGate) :=
  match g with
  | Plain (Rotation k) =>
      Value (Ops [Op (GateOperation (Plain (Rotation (k / 2))) qubits);
                  Ops [Op (GateOperation (Plain (Rotation (k - k / 2))) qubits)]])
  | _ => NotImplemented
  end.

(** X controlled by two qubits on 1. *)
Definition doubly_controlled_x : @ControlledGate BaseGate :=
  {| sub_gate := Plain XGate;
     control_values := cv.ProductOfSums [ {[ 1 ]}; {[ 1 ]} ];
     control_qid_shape := [2; 2] |}.

(** The controlled form of a global phase under one qubit on 1 is a
    rotation of that qubit; every other gate has the controlled form of
    [controlled]. *)
Definition controlled_native (g : @Gate BaseGate) (num_controls : nat)
    (values : cv.ControlValues) (shape : list Z) : @Gate BaseGate :=
  match g with
  | Plain (GlobalPhase k) =>
      if bool_decide (values = cv.ProductOfSums [ {[ 1 ]} ] ∧ shape = [2])
      then Plain (Rotation k)
      else Controlled g values shape
  | _ => controlled g num_controls values shape
  end.

(** A rotation by two units or more decomposes into two smaller rotations,
    every other gate does not decompose. *)
Definition decompose_halving (g : @Gate BaseGate) (qubits : list Qid)
    (context : unit) : Supported (@OP_TREE BaseGate) :=
  match g with
  | Plain (Rotation k) =>
      if bool_decide (2 ≤ k)
      then Value (Ops [Op (GateOperation (Plain (Rotation (k / 2))) qubits);
                       Ops [Op (GateOperation (Plain (Rotation (k - k / 2))) qubits)]])
      else NotImplemented
  | _ => NotImplemented
  end.

(** Every gate decomposes into its own application. *)
Definition decompose_into_itself (g : @Gate BaseGate) (qubits : list Qid)
    (context : unit) : Supported (@OP_TREE BaseGate) :=
  Value (Op (GateOperation g qubits)).

(** The size of a rotation, 0 for the other gates. *)
Definition rank (b : BaseGate) : nat :=
  match b with
  | Rotation k => Z.to_nat k
  | _ => 0%nat
  end.

Definition decompose_with
    (decompose_once : @Gate BaseGate → list Qid → unit → Supported (@OP_TREE BaseGate)) :=
  _decompose_with_context_ validate_args plain_on controlled decompose_once
    (λ c, c) controlled_by has_unitary num_qubits unitary (λ u : Z, u) 0
    Diagonal X decompose_multi_controlled_rotation.

(** The application of [controlled_rotation] to the qubits 0 and 1. *)
Definition rotation_application : @Operation BaseGate :=
  ControlledOperation [q 0] (GateOperation (Plain (Rotation 3)) [q 1])
    (control_values controlled_rotation).

Definition redecompose_with
    (decompose_once : @Gate BaseGate → list Qid → unit → Supported (@OP_TREE BaseGate)) :=
  redecompose validate_args plain_on controlled decompose_once (λ c, c)
    controlled_by has_unitary num_qubits unitary (λ u : Z, u) 0 Diagonal X
    decompose_multi_controlled_rotation.

End Demo.


(** * Properties *)

#[local] Set Warnings "-clear-no-such-hyp".

#[local] Arguments cv.combine : simpl never.
#[local] Arguments cv.product_of_sums : simpl never.
#[local] Arguments cv.validate : simpl never.

(** ** The control-value model *)

Lemma bind_Ok {A B} (a : A) (k : A → Result B) : (Ok a ≫= k) = k a.
Proof. done. Qed.

Lemma within_spec d s : cv.within d s = true ↔ ∀ v, v ∈ s → 0 ≤ v < d.
Proof. unfold cv.within. by rewrite bool_decide_eq_true. Qed.

Lemma in_range_spec sums shape :
  cv.in_range sums shape = true ↔
  ∀ i s d, sums !! i = Some s → shape !! i = Some d → ∀ v, v ∈ s → 0 ≤ v < d.
Proof.
  revert shape. induction sums as [|s sums IH]; intros [|d shape]; simpl;
    try (split; [intros _ i ??; by rewrite ?lookup_nil | done]).
  rewrite andb_true_iff, within_spec, IH. split.
  - intros [Hs Hrest] [|i] s' d' ??; simplify_eq/=; eauto.
  - intros H. split.
    + apply (H 0%nat); done.
    + intros i. apply (H (S i)).
Qed.

Lemma in_range_false sums shape :
  cv.in_range sums shape = false →
  ∃ i s d v, sums !! i = Some s ∧ shape !! i = Some d ∧ v ∈ s ∧ ¬ (0 ≤ v < d).
Proof.
  revert shape. induction sums as [|s sums IH]; intros [|d shape]; simpl; try done.
  rewrite andb_false_iff. intros [Hs|Hrest].
  - unfold cv.within in Hs. apply bool_decide_eq_false in Hs.
    apply (not_set_Forall_Exists _) in Hs as (v & Hv & Hout).
    by exists 0%nat, s, d, v.
  - destruct (IH _ Hrest) as (i & s' & d' & v & ?).
    by exists (S i), s', d', v.
Qed.

Lemma forallb_false {A} (f : A → bool) (l : list A) :
  forallb f l = false → ∃ x, x ∈ l ∧ f x = false.
Proof.
  induction l as [|x l IH]; simpl; [done|].
  rewrite andb_false_iff. intros [Hx|Hl].
  - exists x. split; [left|done].
  - destruct (IH Hl) as (y & ? & ?). exists y. split; [by right|done].
Qed.

Lemma validate_raise_iff c shape :
  cv.validate c shape = Raise ControlValueOutOfRange ↔ cv.out_of_range c shape.
Proof.
  unfold cv.validate, cv.out_of_range.
  destruct (forallb _ _) eqn:Hall.
  - split; [done|]. intros (k & i & s & d & v & Hk & Hs & Hd & Hv & Hout).
    rewrite forallb_forall in Hall.
    apply list_elem_of_In, Hall in Hk.
    pose proof (proj1 (in_range_spec _ _) Hk) as Hr.
    destruct (Hout (Hr i s d Hs Hd v Hv)).
  - split; [intros _|done].
    apply forallb_false in Hall as (k & Hk & Hfalse).
    apply in_range_false in Hfalse as (i & s & d & v & ?).
    by exists k, i, s, d, v.
Qed.

Lemma validate_cases c shape :
  cv.validate c shape = Ok tt ∨ cv.validate c shape = Raise ControlValueOutOfRange.
Proof. unfold cv.validate. destruct (forallb _ _); auto. Qed.

Lemma validate_ok_iff c shape :
  cv.validate c shape = Ok tt ↔ ¬ cv.out_of_range c shape.
Proof.
  rewrite <- validate_raise_iff.
  destruct (validate_cases c shape) as [-> | ->]; naive_solver.
Qed.

Lemma product_of_sums_values k :
  cv.product_of_sums (cv.Values <$> k) = cv.ProductOfSums k.
Proof.
  unfold cv.product_of_sums. f_equal.
  rewrite <- list_fmap_compose. apply list_fmap_id.
Qed.

Lemma product_of_sums_default n :
  cv.product_of_sums (replicate n (cv.Values {[ 1 ]})) =
  cv.ProductOfSums (replicate n {[ 1 ]}).
Proof. unfold cv.product_of_sums. by rewrite fmap_replicate. Qed.

Lemma num_qubits_product_of_sums data :
  cv.num_qubits (cv.product_of_sums data) = length data.
Proof. unfold cv.product_of_sums. simpl. by rewrite length_fmap. Qed.

(** *** Combination *)

Lemma conjunctions_combine a b :
  cv.conjunctions_of (a &&& b) = cv.pairwise (cv.conjunctions_of a) (cv.conjunctions_of b).
Proof. by destruct a, b. Qed.

Lemma elem_of_pairwise xs ys z :
  z ∈ cv.pairwise xs ys ↔ ∃ x y, z = x ++ y ∧ x ∈ xs ∧ y ∈ ys.
Proof.
  unfold cv.pairwise. rewrite list_elem_of_bind. split.
  - intros (x & Hz & Hx). apply list_elem_of_bind in Hz as (y & Hz & Hy).
    apply list_elem_of_singleton in Hz. eauto.
  - intros (x & y & -> & Hx & Hy). exists x. split; [|done].
    apply list_elem_of_bind. exists y. split; [|done]. by apply list_elem_of_singleton.
Qed.

Lemma length_pairwise xs ys :
  length (cv.pairwise xs ys) = (length xs * length ys)%nat.
Proof.
  unfold cv.pairwise. induction xs as [|x xs IH]; [done|].
  rewrite bind_cons, length_app, IH. simpl. f_equal.
  clear. induction ys as [|y ys IH]; [done|].
  rewrite bind_cons. simpl. by rewrite IH.
Qed.

Lemma head_pairwise x xs y ys :
  head (cv.pairwise (x :: xs) (y :: ys)) = Some (x ++ y).
Proof. done. Qed.

Lemma num_qubits_head c :
  cv.num_qubits c = length (default [] (head (cv.conjunctions_of c))).
Proof. by destruct c. Qed.

Lemma well_formed_conjunctions c :
  cv.well_formed c ↔
  cv.conjunctions_of c ≠ [] ∧
  Forall (λ k, length k = cv.num_qubits c) (cv.conjunctions_of c).
Proof.
  destruct c as [sums|cs]; simpl; [|done].
  split; [|done]. intros _. split; [done|]. by constructor.
Qed.

Lemma num_qubits_combine a b :
  cv.well_formed a → cv.well_formed b →
  cv.num_qubits (a &&& b) = (cv.num_qubits a + cv.num_qubits b)%nat.
Proof.
  rewrite !well_formed_conjunctions, !num_qubits_head, conjunctions_combine.
  intros [Ha _] [Hb _].
  destruct (cv.conjunctions_of a) as [|x xs]; [done|].
  destruct (cv.conjunctions_of b) as [|y ys]; [done|].
  rewrite head_pairwise. simpl. apply length_app.
Qed.

Lemma well_formed_combine a b :
  cv.well_formed a → cv.well_formed b → cv.well_formed (a &&& b).
Proof.
  intros Ha Hb. pose proof (num_qubits_combine a b Ha Hb) as Hn.
  rewrite well_formed_conjunctions in *. rewrite Hn, conjunctions_combine.
  destruct Ha as [Ha Hla], Hb as [Hb Hlb]. split.
  - intros Hnil. apply (f_equal length) in Hnil.
    rewrite length_pairwise in Hnil. simpl in Hnil.
    destruct (cv.conjunctions_of a), (cv.conjunctions_of b); simpl in *; done.
  - apply Forall_forall. intros z (x & y & -> & Hx & Hy)%elem_of_pairwise.
    rewrite Forall_forall in Hla, Hlb.
    rewrite length_app. by rewrite (Hla x), (Hlb y).
Qed.

Lemma simplify_fixed c :
  cv.simplify c = c ↔ ∀ k, c ≠ cv.SumOfProducts [k].
Proof.
  destruct c as [sums|[|k [|k' cs]]]; simpl; split; try done.
  intros H. by destruct (H k).
Qed.

Lemma simplify_combine a b :
  cv.well_formed a → cv.well_formed b →
  cv.simplify a = a → cv.simplify b = b →
  cv.simplify (a &&& b) = a &&& b.
Proof.
  rewrite !simplify_fixed. intros Ha Hb Hsa Hsb k Hk.
  assert (Hlen : length (cv.conjunctions_of (a &&& b)) = 1%nat) by by rewrite Hk.
  rewrite conjunctions_combine, length_pairwise in Hlen.
  destruct a as [x|xs], b as [y|ys]; [done|..]; simpl in *.
  - destruct ys as [|y1 [|y2 ys]]; simpl in *; [by destruct Hb|by destruct (Hsb y1)|lia].
  - destruct xs as [|x1 [|x2 xs]]; simpl in *; [by destruct Ha|by destruct (Hsa x1)|lia].
  - destruct xs as [|x1 [|x2 xs]]; simpl in *; [by destruct Ha|by destruct (Hsa x1)|].
    destruct ys as [|y1 ys]; simpl in *; [by destruct Hb|lia].
Qed.

Lemma in_range_app x y cx cy :
  length x = length cx →
  cv.in_range (x ++ y) (cx ++ cy) = cv.in_range x cx && cv.in_range y cy.
Proof.
  revert cx. induction x as [|s x IH]; intros [|d cx] Hlen; simplify_eq/=; [done|].
  by rewrite IH, andb_assoc.
Qed.

Lemma validate_ok_forall c shape :
  cv.validate c shape = Ok tt ↔
  ∀ k, k ∈ cv.conjunctions_of c → cv.in_range k shape = true.
Proof.
  unfold cv.validate. destruct (forallb _ _) eqn:Hall.
  - rewrite forallb_forall in Hall. split; [|done].
    intros _ k Hk. by apply Hall, list_elem_of_In.
  - split; [done|]. intros H.
    apply forallb_false in Hall as (k & Hk & Hfalse).
    rewrite (H k Hk) in Hfalse. done.
Qed.

Lemma validate_combine a b ca cb :
  cv.well_formed a → cv.num_qubits a = length ca →
  cv.validate a ca = Ok tt → cv.validate b cb = Ok tt →
  cv.validate (a &&& b) (ca ++ cb) = Ok tt.
Proof.
  rewrite well_formed_conjunctions, !validate_ok_forall, conjunctions_combine.
  intros [_ Hlen] Hn Ha Hb z (x & y & -> & Hx & Hy)%elem_of_pairwise.
  rewrite Forall_forall in Hlen.
  rewrite in_range_app by (rewrite <- Hn; by apply Hlen).
  by rewrite (Ha x), (Hb y).
Qed.

Lemma resolve_well_formed a :
  cv.well_formed_argument (Some a) → cv.well_formed (cv.resolve a).
Proof.
  destruct a as [[sums|[|k [|k' cs]]]|data]; simpl; try done.
Qed.

Lemma resolve_simplified a : cv.simplify (cv.resolve a) = cv.resolve a.
Proof. by destruct a as [[sums|[|k [|k' cs]]]|data]. Qed.

(** ** The constructor *)

Section construction.

Context {BaseGate : Type} `{!EqDecision BaseGate}.
Context (is_measurement has_mixture is_parameterized : @Gate BaseGate → bool).

Local Abbreviation validate_sub := (_validate_sub_object is_measurement has_mixture is_parameterized).
Local Abbreviation init := (__init__ is_measurement has_mixture is_parameterized).
Local Abbreviation constructed := (constructed is_measurement has_mixture is_parameterized).

Implicit Types (sub : @Gate BaseGate) (g self inner : @ControlledGate BaseGate).
Implicit Types (nc : option Z) (cvs : option cv.Argument) (shape : option (list Z)).

(** The constructor in terms of what the construction declares. *)
Lemma init_declared sub nc cvs shape :
  init sub nc cvs shape =
  (validate_sub sub ;;
   let n := declared_num_controls nc cvs shape in
   let v := declared_control_values nc cvs shape in
   let c := declared_control_qid_shape nc cvs shape in
   if decide (n ≠ Z.of_nat (cv.num_qubits v)) then Raise NumQubitsMismatch
   else if decide (n ≠ Z.of_nat (length c)) then Raise ControlQidShapeMismatch
   else cv.validate v c ;; Ok (absorb sub v c)).
Proof.
  unfold __init__. destruct (validate_sub sub) as [[]|e]; cbn; [|done].
  assert (Habsorb : ∀ v c,
    match sub with
    | Plain _ => Ok {| sub_gate := sub; control_values := v; control_qid_shape := c |}
    | Controlled inner_sub inner_values inner_shape =>
        Ok {| sub_gate := inner_sub; control_values := v &&& inner_values;
              control_qid_shape := c ++ inner_shape |}
    end = Ok (absorb sub v c)) by (intros; by destruct sub).
  destruct cvs as [[c|data]|].
  - destruct c as [sums|[|k [|k' cs]]]; cbn;
      rewrite ?product_of_sums_values, ?length_fmap;
      destruct nc, shape; cbn; repeat case_decide; try done.
      all: destruct (cv.validate _ _) as [[]|]; cbn.
      all: rewrite ?Habsorb.
      all: done.
  - destruct nc, shape; cbn; rewrite ?num_qubits_product_of_sums;
      repeat case_decide; try done;
      destruct (cv.validate _ _) as [[]|]; cbn; by rewrite ?Habsorb.
  - destruct nc, shape; cbn; rewrite ?product_of_sums_default;
      repeat case_decide; try done;
      destruct (cv.validate _ _) as [[]|]; cbn; by rewrite ?Habsorb.
Qed.

Lemma validate_sub_ok_iff sub :
  validate_sub sub = Ok tt ↔
  is_measurement sub = false ∧ (has_mixture sub = true ∨ is_parameterized sub = true).
Proof.
  unfold _validate_sub_object.
  destruct (is_measurement sub), (has_mixture sub), (is_parameterized sub);
    simpl; naive_solver.
Qed.

Lemma validate_sub_raise_iff sub :
  raises (validate_sub sub) ↔
  is_measurement sub = true ∨ (has_mixture sub = false ∧ is_parameterized sub = false).
Proof.
  unfold raises, _validate_sub_object.
  destruct (is_measurement sub), (has_mixture sub), (is_parameterized sub);
    simpl; naive_solver.
Qed.

Lemma init_ok_iff sub nc cvs shape g :
  init sub nc cvs shape = Ok g ↔
  validate_sub sub = Ok tt ∧
  declared_num_controls nc cvs shape =
    Z.of_nat (cv.num_qubits (declared_control_values nc cvs shape)) ∧
  declared_num_controls nc cvs shape =
    Z.of_nat (length (declared_control_qid_shape nc cvs shape)) ∧
  cv.validate (declared_control_values nc cvs shape)
    (declared_control_qid_shape nc cvs shape) = Ok tt ∧
  g = absorb sub (declared_control_values nc cvs shape)
        (declared_control_qid_shape nc cvs shape).
Proof.
  rewrite init_declared.
  destruct (validate_sub sub) as [[]|e]; cbn; [|naive_solver].
  repeat case_decide; [naive_solver..|].
  destruct (cv.validate _ _) as [[]|e]; cbn; naive_solver.
Qed.

Lemma absorb_as_gate inner v c :
  absorb (as_gate inner) v c =
  {| sub_gate := sub_gate inner;
     control_values := v &&& control_values inner;
     control_qid_shape := c ++ control_qid_shape inner |}.
Proof. done. Qed.

Lemma gate_not_own_sub sub v c : sub ≠ Controlled sub v c.
Proof.
  revert v c. induction sub as [b|sub IH v' c']; intros v c; [done|].
  intros [= Hsub -> ->]. by apply (IH v c).
Qed.

Lemma declared_well_formed nc cvs shape :
  cv.well_formed_argument cvs →
  cv.well_formed (declared_control_values nc cvs shape).
Proof.
  destruct cvs as [a|]; [|done]. apply resolve_well_formed.
Qed.

Lemma declared_simplified nc cvs shape :
  cv.simplify (declared_control_values nc cvs shape) =
  declared_control_values nc cvs shape.
Proof. destruct cvs as [a|]; [|done]. apply resolve_simplified. Qed.

(** A construction on a gate of another class, or on an entity that
    satisfies the invariant, establishes the invariant. *)
Lemma init_invariant sub nc cvs shape g :
  (∃ b, sub = Plain b) ∨ (∃ inner, sub = as_gate inner ∧ invariant is_measurement has_mixture is_parameterized inner) →
  cv.well_formed_argument cvs →
  init sub nc cvs shape = Ok g →
  invariant is_measurement has_mixture is_parameterized g.
Proof.
  intros Hsub Hwf (Hvalid & Hn & Hc & Hrange & ->)%init_ok_iff.
  pose proof (declared_well_formed nc cvs shape Hwf) as Hwfv.
  pose proof (declared_simplified nc cvs shape) as Hsimp.
  destruct Hsub as [[b ->]|(inner & -> & Hb & Hvs & Hni & Hri & Hwi & Hsi)].
  - unfold invariant. simpl. split_and!; eauto. lia.
  - rewrite absorb_as_gate. unfold invariant. simpl. split_and!; try done.
    + rewrite num_qubits_combine, length_app by done. lia.
    + apply validate_combine; try done. lia.
    + by apply well_formed_combine.
    + by apply simplify_combine.
Qed.

Lemma constructed_invariant g :
  constructed g → invariant is_measurement has_mixture is_parameterized g.
Proof.
  induction 1 as [b nc cvs shape g Hwf Hinit|inner nc cvs shape g _ IH Hwf Hinit].
  - eapply init_invariant; [left; eauto|done..].
  - eapply init_invariant; [right; eauto|done..].
Qed.

Lemma validate_default n :
  cv.validate (cv.ProductOfSums (replicate n {[ 1 ]})) (replicate n 2) = Ok tt.
Proof.
  apply validate_ok_forall. intros k ->%list_elem_of_singleton.
  induction n as [|n IH]; [done|]. simpl. rewrite IH, andb_true_r.
  apply within_spec. intros v ->%elem_of_singleton. lia.
Qed.

(** C1 (flattening).  A construction on a sub-gate that is itself a
    controlled gate, with inner controls of shape c1 and values v1, and with
    a valid outer control spec of shape c2 and values v2 (as the construction
    declares them), yields the entity whose sub-gate is the sub-gate of the
    inner entity, whose shape is c2 followed by c1 and whose control values
    are v2 & v1; nothing else is yielded, the sub-gate is not the inner entity
    itself, and it is a gate of another class when the inner entity was
    itself constructed. *)
Theorem C1_flattening inner nc cvs shape :
  let v2 := declared_control_values nc cvs shape in
  let c2 := declared_control_qid_shape nc cvs shape in
  let flat :=
    {| sub_gate := sub_gate inner;
       control_values := v2 &&& control_values inner;
       control_qid_shape := c2 ++ control_qid_shape inner |} in
  (validate_sub (as_gate inner) = Ok tt →
   declared_num_controls nc cvs shape = Z.of_nat (cv.num_qubits v2) →
   declared_num_controls nc cvs shape = Z.of_nat (length c2) →
   cv.validate v2 c2 = Ok tt →
   init (as_gate inner) nc cvs shape = Ok flat) ∧
  (∀ g, init (as_gate inner) nc cvs shape = Ok g → g = flat) ∧
  sub_gate flat ≠ as_gate inner ∧
  (constructed inner → ∃ b, sub_gate flat = Plain b).
Proof.
  intros v2 c2 flat. split_and!.
  - intros Hsub Hn Hc Hrange. apply init_ok_iff. by rewrite absorb_as_gate.
  - intros g (_ & _ & _ & _ & ->)%init_ok_iff. by rewrite absorb_as_gate.
  - simpl. apply gate_not_own_sub.
  - intros Hinner. by destruct (constructed_invariant inner Hinner) as [Hb _].
Qed.

(** C3 (construction validation).  A construction raises exactly when the
    sub-gate is a measurement, or the sub-gate has no mixture and is not
    parameterized, or the number of controls differs from the number of
    qudits of the control values, or the length of the shape differs from the
    number of controls, or an accepted value is out of range for the
    dimension of its qudit; the exception is then one of the five validation
    errors; in every other case the construction succeeds. *)
Theorem C3_construction_validation sub nc cvs shape :
  let n := declared_num_controls nc cvs shape in
  let v := declared_control_values nc cvs shape in
  let c := declared_control_qid_shape nc cvs shape in
  let invalid :=
    is_measurement sub = true ∨
    (has_mixture sub = false ∧ is_parameterized sub = false) ∨
    n ≠ Z.of_nat (cv.num_qubits v) ∨
    Z.of_nat (length c) ≠ n ∨
    cv.out_of_range v c in
  (raises (init sub nc cvs shape) ↔ invalid) ∧
  (succeeds (init sub nc cvs shape) ↔ ¬ invalid) ∧
  (∀ e, init sub nc cvs shape = Raise e →
     e ∈ [CannotControlMeasurement; CannotControlNonUnitaryChannel;
          NumQubitsMismatch; ControlQidShapeMismatch; ControlValueOutOfRange]).
Proof.
  intros n v c invalid.
  assert (Hraise : raises (init sub nc cvs shape) ↔ invalid).
  { unfold invalid. rewrite init_declared. fold n v c.
    pose proof (validate_sub_raise_iff sub) as Hsub.
    destruct (validate_sub sub) as [[]|e] eqn:Hvs; cbn.
    - assert (Hno : ¬ (is_measurement sub = true ∨
        has_mixture sub = false ∧ is_parameterized sub = false)).
      { rewrite <- Hsub. by intros [? ?]. }
      pose proof (validate_raise_iff v c) as Hout.
      repeat case_decide.
      + split; [tauto|]. intros _. by eexists.
      + split; [intros _; right; right; right; left; congruence|]. intros _. by eexists.
      + destruct (validate_cases v c) as [Hv|Hv]; rewrite Hv in *; cbn.
        * split; [by intros [? ?]|]. intros [?|[?|[?|[?|Ho]]]]; try tauto; try congruence.
          apply Hout in Ho. done.
        * split; [|intros _; by eexists].
          intros _. do 4 right. by apply Hout.
    - split; [|intros _; by eexists]. intros _.
      destruct (proj1 Hsub) as [?|?]; [by eexists|tauto..]. }
  split_and!; [done| |].
  - rewrite <- Hraise. unfold succeeds, raises.
    destruct (init sub nc cvs shape); naive_solver.
  - intros e. rewrite init_declared. fold n v c.
    unfold _validate_sub_object.
    destruct (is_measurement sub); cbn; [intros [= <-]; set_solver|].
    destruct (negb _ && negb _); cbn; [intros [= <-]; set_solver|].
    repeat case_decide; try (intros [= <-]; set_solver).
    destruct (validate_cases v c) as [Hv|Hv]; rewrite Hv; cbn; [done|].
    intros [= <-]; set_solver.
Qed.

(** C7 (defaults).  When the control values are omitted, every control the
    construction declares accepts exactly the value 1; when the number of
    controls is omitted it is the number of qudits of the control values if
    they are given, else the length of the shape if it is given, else 1; when
    the shape is omitted every declared control is a two-level qudit; and
    for a valid sub-gate and any control count n ≥ 0 the construction with
    the defaults succeeds. *)
Theorem C7_defaults sub :
  (∀ nc shape g, init sub nc None shape = Ok g →
     ∃ n : nat,
       match nc, shape with
       | Some k, _ => k = Z.of_nat n
       | None, Some s => n = length s
       | None, None => n = 1%nat
       end ∧
       g = absorb sub (cv.ProductOfSums (replicate n {[ 1 ]}))
             (default (replicate n 2) shape)) ∧
  (∀ a shape g, init sub None (Some a) shape = Ok g →
     let n := cv.num_qubits (cv.resolve a) in
     g = absorb sub (cv.resolve a) (default (replicate n 2) shape) ∧
     length (default (replicate n 2) shape) = n) ∧
  (∀ nc cvs g, init sub nc cvs None = Ok g →
     ∃ n : nat,
       declared_num_controls nc cvs None = Z.of_nat n ∧
       cv.num_qubits (declared_control_values nc cvs None) = n ∧
       g = absorb sub (declared_control_values nc cvs None) (replicate n 2)) ∧
  (validate_sub sub = Ok tt →
     (∀ n : nat,
        init sub (Some (Z.of_nat n)) None None =
        Ok (absorb sub (cv.ProductOfSums (replicate n {[ 1 ]})) (replicate n 2))) ∧
     init sub None None None = Ok (absorb sub (cv.ProductOfSums [ {[ 1 ]} ]) [2])) ∧
  (∀ b nc shape g, sub = Plain b → init sub nc None shape = Ok g →
     control_values g = cv.ProductOfSums (replicate (num_controls g) {[ 1 ]}) ∧
     cv.is_trivial (control_values g) = true).
Proof.
  split_and!.
  - intros nc shape g (_ & Hn & Hc & _ & ->)%init_ok_iff.
    destruct nc as [k|], shape as [s|]; cbn in *; rewrite ?length_replicate in *.
    + exists (length s). split; [lia|]. do 3 f_equal. lia.
    + exists (Z.to_nat k). split; [lia|done].
    + exists (length s). by rewrite Nat2Z.id.
    + by exists 1%nat.
  - intros a shape g (_ & Hn & Hc & _ & ->)%init_ok_iff n.
    destruct shape as [s|]; cbn in *; rewrite ?length_replicate, ?Nat2Z.id in *;
      split; try done; lia.
  - intros nc cvs g (_ & Hn & Hc & _ & ->)%init_ok_iff.
    cbn in *. rewrite length_replicate in Hc.
    exists (Z.to_nat (declared_num_controls nc cvs None)). split_and!; [lia|lia|done].
  - intros Hsub.
    assert (Hn : ∀ n : nat,
      init sub (Some (Z.of_nat n)) None None =
      Ok (absorb sub (cv.ProductOfSums (replicate n {[ 1 ]})) (replicate n 2))).
    { intros n. apply init_ok_iff. cbn. rewrite !length_replicate, !Nat2Z.id.
      split_and!; try done. apply validate_default. }
    split; [done|]. apply init_ok_iff. cbn. by split_and!.
  - intros b nc shape g -> (_ & Hn & Hc & _ & ->)%init_ok_iff.
    cbn in *. rewrite length_replicate in Hn.
    unfold num_controls. simpl.
    replace (length (declared_control_qid_shape nc None shape))
      with (Z.to_nat (declared_num_controls nc None shape)) by lia.
    split; [done|].
    unfold cv.is_trivial. apply bool_decide_eq_true. simpl.
    by rewrite length_replicate.
Qed.

(** C9 (serialization payload).  The payload of a constructed entity has
    exactly the three keys control_values, control_qid_shape and sub_gate,
    bound to the three fields, and the construction from the payload yields
    the entity itself. *)
Theorem C9_json_round_trip g :
  constructed g →
  dom (_json_dict_ g) =
    ({[ "control_values"; "control_qid_shape"; "sub_gate" ]} : gset string) ∧
  _json_dict_ g !! "control_values" = Some (ControlValuesField (control_values g)) ∧
  _json_dict_ g !! "control_qid_shape" = Some (ShapeField (control_qid_shape g)) ∧
  _json_dict_ g !! "sub_gate" = Some (GateField (sub_gate g)) ∧
  from_json_dict is_measurement has_mixture is_parameterized (_json_dict_ g) = Some (Ok g).
Proof.
  intros ([b Hb] & Hsub & Hn & Hrange & Hwf & Hsimp)%constructed_invariant.
  assert (H1 : _json_dict_ g !! "control_values" =
               Some (ControlValuesField (control_values g))) by done.
  assert (H2 : _json_dict_ g !! "control_qid_shape" =
               Some (ShapeField (control_qid_shape g))) by done.
  assert (H3 : _json_dict_ g !! "sub_gate" = Some (GateField (sub_gate g))) by done.
  split_and!; try done.
  unfold from_json_dict. rewrite H1, H2, H3. f_equal.
    apply init_ok_iff. cbn. rewrite Hsimp. split_and!; try done; [lia|].
    rewrite Hb. simpl. destruct g; simpl in *; by subst.
Qed.

(** ** Exponentiation and parameter resolution *)

Context {Exponent Resolver : Type}.
Context (pow : @Gate BaseGate → Exponent → Supported (@Gate BaseGate)).
Context (resolve_parameters : @Gate BaseGate → Resolver → bool → @Gate BaseGate).

Local Abbreviation power := (__pow__ is_measurement has_mixture is_parameterized pow).
Local Abbreviation resolve :=
  (_resolve_parameters_ is_measurement has_mixture is_parameterized resolve_parameters).

(** The construction that [__pow__] and [_resolve_parameters_] run: on an
    entity that satisfies the invariant only the new sub-gate is checked. *)
Lemma init_same_controls self new_sub :
  invariant is_measurement has_mixture is_parameterized self →
  init new_sub (Some (Z.of_nat (num_controls self)))
    (Some (cv.Object (control_values self))) (Some (control_qid_shape self)) =
  (validate_sub new_sub ;;
   Ok (absorb new_sub (control_values self) (control_qid_shape self))).
Proof.
  intros (_ & _ & Hn & Hrange & _ & Hsimp).
  rewrite init_declared. cbn. rewrite Hsimp, Hrange. unfold num_controls.
  destruct (validate_sub new_sub) as [[]|e]; cbn; [|done].
  repeat case_decide; try done; lia.
Qed.

(** C8 (exponentiation delegates).  [g ** e] exponentiates the sub-gate:
    when that is unsupported the result is the unsupported signal and
    nothing is raised; otherwise the result is that of the construction on
    the exponentiated sub-gate with the number of controls, the control
    values and the shape of g, which for a constructed g and a new sub-gate
    that may be controlled is a controlled gate. *)
Theorem C8_pow_delegates self exponent :
  (pow (sub_gate self) exponent = NotImplemented →
   power self exponent = Ok NotImplemented) ∧
  (∀ new_sub, pow (sub_gate self) exponent = Value new_sub →
     power self exponent =
     (powered ← init new_sub (Some (Z.of_nat (num_controls self)))
                  (Some (cv.Object (control_values self)))
                  (Some (control_qid_shape self));
      Ok (Value powered))) ∧
  (∀ new_sub, constructed self →
     pow (sub_gate self) exponent = Value new_sub →
     validate_sub new_sub = Ok tt →
     power self exponent =
     Ok (Value (absorb new_sub (control_values self) (control_qid_shape self)))).
Proof.
  unfold __pow__. split_and!.
  - by intros ->.
  - by intros new_sub ->.
  - intros new_sub Hself%constructed_invariant -> Hsub.
    by rewrite init_same_controls, Hsub.
Qed.

(** C10 (frame).  For a constructed g: when the exponentiated sub-gate is
    defined and is not a controlled gate, any entity that [g ** e] returns
    has the control values, the shape and the number of controls of g and
    the exponentiated sub-gate as its sub-gate, and it is returned whenever
    that sub-gate may be controlled; likewise for [_resolve_parameters_] and
    a resolved sub-gate that is not a controlled gate. *)
Theorem C10_frame self :
  constructed self →
  (∀ exponent b, pow (sub_gate self) exponent = Value (Plain b) →
     (∀ r, power self exponent = Ok r →
        ∃ g, r = Value g ∧ sub_gate g = Plain b ∧
             control_values g = control_values self ∧
             control_qid_shape g = control_qid_shape self ∧
             num_controls g = num_controls self) ∧
     (validate_sub (Plain b) = Ok tt →
        power self exponent =
        Ok (Value {| sub_gate := Plain b;
                     control_values := control_values self;
                     control_qid_shape := control_qid_shape self |}))) ∧
  (∀ resolver recursive b,
     resolve_parameters (sub_gate self) resolver recursive = Plain b →
     (∀ g, resolve self resolver recursive = Ok g →
        sub_gate g = Plain b ∧
        control_values g = control_values self ∧
        control_qid_shape g = control_qid_shape self ∧
        num_controls g = num_controls self) ∧
     (validate_sub (Plain b) = Ok tt →
        resolve self resolver recursive =
        Ok {| sub_gate := Plain b;
              control_values := control_values self;
              control_qid_shape := control_qid_shape self |})).
Proof.
  intros Hself%constructed_invariant. split.
  - intros exponent b Hpow. unfold __pow__. rewrite Hpow, init_same_controls by done.
    split.
    + destruct (validate_sub (Plain b)) as [[]|e]; cbn; [|done].
      intros r [= <-]. eexists. split; [done|]. by split_and!.
    + by intros ->.
  - intros resolver recursive b Hres. unfold _resolve_parameters_.
    rewrite Hres, init_same_controls by done. split.
    + destruct (validate_sub (Plain b)) as [[]|e]; cbn; [|done].
      intros g [= <-]. by split_and!.
    + by intros ->.
Qed.

End construction.

(** ** Arrays *)

Lemma ravel_lt shape hot :
  np.valid_index shape hot → (np.ravel shape hot < np.size shape)%nat.
Proof.
  induction 1 as [|i d hot shape Hi _ IH]; simpl; [lia|].
  assert (Z.to_nat i < Z.to_nat d)%nat by lia. nia.
Qed.

Lemma setitem_ravel {A} shape hot (x : A) (a : list A) :
  np.valid_index shape hot → length a = np.size shape →
  np.setitem shape hot x a = Ok (<[np.ravel shape hot := x]> a).
Proof.
  intros Hvalid. revert a.
  induction Hvalid as [|i d hot shape Hi Hvalid IH]; intros a Hlen; simpl in *.
  - by destruct a as [|y [|??]].
  - unfold np.index. rewrite decide_True by done. cbn.
    set (j := Z.to_nat i). set (block := np.size shape).
    pose proof (ravel_lt _ _ Hvalid) as Hr. fold block in Hr.
    assert (Hj : (j < Z.to_nat d)%nat) by (unfold j; lia).
    assert (Hfit : (j * block + block ≤ length a)%nat) by (rewrite Hlen; fold block; nia).
    rewrite IH by (rewrite length_take, length_drop; lia). cbn. f_equal.
    assert (Ha : a = take (j * block) a ++ take block (drop (j * block) a)
                     ++ drop (S j * block) a).
    { rewrite <- (take_drop (j * block) a) at 1. f_equal.
      rewrite <- (take_drop block (drop (j * block) a)) at 1. f_equal.
      rewrite drop_drop. f_equal. lia. }
    assert (H1 : length (take (j * block) a) = (j * block)%nat)
      by (rewrite length_take; lia).
    assert (H2 : length (take block (drop (j * block) a)) = block)
      by (rewrite length_take, length_drop; lia).
    revert Ha H1 H2.
    generalize (take (j * block) a) (take block (drop (j * block) a))
      (drop (S j * block) a).
    intros l1 l2 l3 -> H1 H2.
    rewrite insert_app_r_alt by lia. f_equal.
    rewrite insert_app_l by lia. do 2 f_equal; [lia|].
    rewrite app_assoc. apply drop_app_length'. rewrite length_app. lia.
Qed.

Lemma assignments_valid sums shape hot :
  length sums = length shape → cv.in_range sums shape = true →
  hot ∈ cv.assignments sums → np.valid_index shape hot.
Proof.
  revert shape hot. induction sums as [|s sums IH]; intros [|d shape] hot Hlen;
    simplify_eq/=.
  - intros _ ->%list_elem_of_singleton. constructor.
  - rewrite andb_true_iff, within_spec. intros [Hs Hrange].
    intros (v & Hhot & Hv)%list_elem_of_bind.
    apply list_elem_of_bind in Hhot as (t & ->%list_elem_of_singleton & Ht).
    constructor; [apply Hs; by apply elem_of_elements|by apply IH].
Qed.

Lemma expand_valid c shape hot :
  cv.well_formed c → cv.num_qubits c = length shape →
  cv.validate c shape = Ok tt →
  hot ∈ cv.expand c → np.valid_index shape hot.
Proof.
  rewrite well_formed_conjunctions, validate_ok_forall.
  intros [_ Hlen] Hn Hrange Hhot. rewrite Forall_forall in Hlen.
  assert (∃ k, k ∈ cv.conjunctions_of c ∧ hot ∈ cv.assignments k) as (k & Hk & Hin).
  { destruct c as [sums|cs]; simpl in *.
    - exists sums. split; [by left|done].
    - apply elem_of_remove_dups, list_elem_of_bind in Hhot as (k & ? & ?). eauto. }
  apply (assignments_valid k); [|by apply Hrange|done].
  rewrite <- Hn. by apply Hlen.
Qed.

Lemma zeros_nonnegative {A} (zero : A) shape :
  Forall (λ d, 0 ≤ d) shape →
  np.zeros zero shape = Ok (replicate (np.size shape) zero).
Proof.
  intros Hshape. unfold np.zeros.
  replace (forallb _ shape) with true; [done|].
  symmetry. apply forallb_forall. intros d Hd%list_elem_of_In.
  rewrite Forall_forall in Hshape. apply bool_decide_eq_true. by apply Hshape.
Qed.

Lemma hot_loop_inserts {A} shape hots (a : A) rads :
  Forall (np.valid_index shape) hots → length rads = np.size shape →
  hot_loop shape hots a rads =
  Ok (foldl (λ r hot, <[np.ravel shape hot := a]> r) rads hots).
Proof.
  intros Hhots. revert rads.
  induction Hhots as [|hot hots Hhot _ IH]; intros rads Hlen; simpl; [done|].
  rewrite setitem_ravel by done. cbn. apply IH. by rewrite length_insert.
Qed.

Lemma length_foldl_insert {A} (f : list Z → nat) hots (a : A) (rads : list A) :
  length (foldl (λ r hot, <[f hot := a]> r) rads hots) = length rads.
Proof.
  revert rads. induction hots as [|hot hots IH]; intros rads; simpl; [done|].
  by rewrite IH, length_insert.
Qed.

Lemma lookup_foldl_insert {A} (f : list Z → nat) hots (a zero : A) (rads : list A) k :
  rads !! k = Some zero →
  foldl (λ r hot, <[f hot := a]> r) rads hots !! k =
  Some (if decide (k ∈ f <$> hots) then a else zero).
Proof.
  revert rads zero. induction hots as [|hot hots IH]; intros rads zero Hk.
  - simpl. by rewrite Hk.
  - rewrite fmap_cons. simpl foldl.
    destruct (decide (k = f hot)) as [->|Hne].
    + erewrite (IH _ a) by (apply list_lookup_insert_eq; by eapply lookup_lt_Some).
      rewrite (decide_True (P := f hot ∈ f hot :: _)) by left.
      by case_decide.
    + erewrite (IH _ zero) by (by rewrite list_lookup_insert_ne).
      f_equal. repeat case_decide; try done.
      * exfalso. set_solver.
      * exfalso. set_solver.
Qed.

(** ** Application and decomposition *)

Section decomposition.

Context {BaseGate : Type} `{!EqDecision BaseGate}.
Context (is_measurement has_mixture is_parameterized : @Gate BaseGate → bool).
Context (validate_args : @Gate BaseGate → list Qid → Result unit).
Context (plain_on : BaseGate → list Qid → Result (@Operation BaseGate)).
Context {DecompositionContext Matrix Angle : Type}.
Context (controlled : @Gate BaseGate → nat → cv.ControlValues → list Z → @Gate BaseGate).
Context (decompose_once_with_qubits :
  @Gate BaseGate → list Qid → DecompositionContext → Supported (@OP_TREE BaseGate)).
Context (extracting_global_phases : DecompositionContext → DecompositionContext).
Context (controlled_by :
  @Operation BaseGate → list Qid → cv.ControlValues → @Operation BaseGate).
Context (has_unitary : @Gate BaseGate → bool) (num_qubits : @Gate BaseGate → nat).
Context (unitary : @Gate BaseGate → Matrix).
Context (angle : Matrix → Angle) (zero : Angle).
Context (DiagonalGate : list Angle → BaseGate).
Context (X : Qid → @Operation BaseGate).
Context (decompose_multi_controlled_rotation :
  Matrix → list Qid → Qid → list (@Operation BaseGate)).

Local Abbreviation init := (__init__ is_measurement has_mixture is_parameterized).
Local Abbreviation constructed := (constructed is_measurement has_mixture is_parameterized).
Local Abbreviation apply_gate := (gate_on validate_args plain_on).
Local Abbreviation apply_self := (on validate_args plain_on).
Local Abbreviation brute := (brute_force plain_on has_unitary num_qubits unitary
  angle zero DiagonalGate X decompose_multi_controlled_rotation).
Local Abbreviation decompose := (_decompose_with_context_ validate_args plain_on
  controlled decompose_once_with_qubits extracting_global_phases controlled_by
  has_unitary num_qubits unitary angle zero DiagonalGate X
  decompose_multi_controlled_rotation).

Implicit Types (self : @ControlledGate BaseGate) (qubits : list Qid).

(** C5 (application).  Applied to no qudit an entity raises the
    empty-application error; applied to a non-empty sequence of qudits that
    are valid for it, and whose remainder the sub-gate accepts, it yields
    the controlled operation that binds the first [num_controls] qudits as
    controls, with the control values of the entity, and the remaining
    qudits to the sub-gate. *)
Theorem C5_application self :
  apply_self self [] = Raise EmptyQubits ∧
  (∀ qubits sub_operation,
     qubits ≠ [] →
     validate_args (as_gate self) qubits = Ok tt →
     apply_gate (sub_gate self) (drop (num_controls self) qubits) = Ok sub_operation →
     apply_self self qubits =
     Ok (ControlledOperation (take (num_controls self) qubits) sub_operation
           (control_values self))) ∧
  (∀ qubits operation,
     apply_self self qubits = Ok operation →
     qubits ≠ [] ∧ validate_args (as_gate self) qubits = Ok tt ∧
     ∃ sub_operation,
       apply_gate (sub_gate self) (drop (num_controls self) qubits) = Ok sub_operation ∧
       operation = ControlledOperation (take (num_controls self) qubits)
                     sub_operation (control_values self)).
Proof.
  unfold on, as_gate, num_controls. split_and!.
  - done.
  - intros qubits sub_operation Hne Hvalid Hsub. simpl.
    destruct qubits; [done|]. rewrite decide_False by done.
    rewrite Hvalid. cbn. by rewrite Hsub.
  - intros qubits operation. simpl.
    destruct qubits as [|q qubits]; [done|]. rewrite decide_False by done.
    destruct (validate_args _ _) as [[]|e]; cbn; [|done].
    destruct (gate_on _ _ _ _) as [sub_operation|e]; cbn; [|done].
    intros [= <-]. split_and!; try done. by eexists.
Qed.

Lemma eq_spec self other : __eq__ self other = true ↔ other = as_gate self.
Proof.
  unfold __eq__, as_gate, _value_equality_values_, num_controls.
  destruct other as [b|sub values shape], self as [s v c]; simpl; [done|].
  rewrite bool_decide_eq_true. naive_solver.
Qed.

(** *** Case 2: the controlled single-qubit gate *)

Lemma list_remove_middle q pre rest :
  q ∉ pre → list_remove q (pre ++ q :: rest) = Ok (pre ++ rest).
Proof.
  induction pre as [|p pre IH]; intros Hq; simpl.
  - by rewrite decide_True.
  - rewrite decide_False by set_solver. rewrite IH by set_solver. done.
Qed.

Lemma zero_not_full : ({[ 0 ]} : gset Z) ≠ {[ 0; 1 ]}.
Proof. intros H. assert (1 ∈ ({[ 0 ]} : gset Z)) by (rewrite H; set_solver). set_solver. Qed.

Lemma invert_loop_spec sums controls pre invert_ops :
  NoDup (pre ++ controls) →
  invert_loop X (zip sums controls) invert_ops (pre ++ controls) =
  Ok (invert_ops ++ flips X sums controls, pre ++ constrained sums controls).
Proof.
  revert controls pre invert_ops.
  induction sums as [|s sums IH]; intros controls pre invert_ops Hnodup.
  { unfold flips, constrained. simpl. by rewrite app_nil_r. }
  destruct controls as [|q controls].
  { unfold flips, constrained. simpl. by rewrite !app_nil_r. }
  assert (Hq : q ∉ pre).
  { apply NoDup_app in Hnodup as (_ & Hdisj & _). intros Hin.
    apply (Hdisj q Hin). left. }
  assert (Hnext : NoDup ((pre ++ [q]) ++ controls)) by by rewrite <- app_assoc.
  unfold flips, constrained.
  change (zip (s :: sums) (q :: controls)) with ((s, q) :: zip sums controls).
  change (drop (length (s :: sums)) (q :: controls)) with (drop (length sums) controls).
  simpl invert_loop.
  destruct (decide (s = {[ 0 ]})) as [->|Hzero].
  - rewrite (cons_middle q pre controls), app_assoc, IH by done.
    rewrite filter_cons_True by done.
    rewrite filter_cons_True by apply zero_not_full.
    unfold flips, constrained. simpl.
    by rewrite <- !app_assoc.
  - rewrite filter_cons_False by done.
    destruct (decide (s = {[ 0; 1 ]})) as [->|Hfull].
    + rewrite list_remove_middle, bind_Ok by done.
      rewrite filter_cons_False by (simpl; tauto).
      apply NoDup_app in Hnodup as (Hpre & Hdisj & Hcontrols%NoDup_cons_1_2).
      rewrite IH; [done|].
      apply NoDup_app. split_and!; [done| |done].
      intros x Hx Hin. apply (Hdisj x Hx). by right.
    + rewrite (cons_middle q pre controls), app_assoc, IH by done.
      rewrite filter_cons_True by done.
      unfold flips, constrained. simpl.
      by rewrite <- !app_assoc.
Qed.

(** C2 (flip sandwich), as the code has it.  In the branch for a
    single-qubit unitary sub-gate, a product of sums and two-level qudits,
    the result is the flips, then the synthesized operations, then the flips
    again; a control qubit that accepts exactly the value 0 gets a flip on
    both sides and stays among the controls passed to the synthesis, a
    control qubit that accepts both values is dropped from them, and every
    other control qubit is passed on without a flip. *)
Theorem C2_flip_sandwich self qubits context sums target :
  let controls := take (num_controls self) qubits in
  let invert_ops := flips X sums controls in
  controlled (sub_gate self) (num_controls self) (control_values self)
    (control_qid_shape self) = as_gate self →
  decompose_once_with_qubits (sub_gate self) (drop (num_controls self) qubits)
    (extracting_global_phases context) = NotImplemented →
  has_unitary (sub_gate self) = true →
  Forall (λ q, dimension q = 2) qubits →
  num_qubits (sub_gate self) = 1%nat →
  control_values self = cv.ProductOfSums sums →
  NoDup controls →
  last qubits = Some target →
  decompose self qubits context =
    Ok (Value (Ops (Op <$> invert_ops
                      ++ decompose_multi_controlled_rotation (unitary (sub_gate self))
                           (constrained sums controls) target
                      ++ invert_ops))) ∧
  (∀ i s q, sums !! i = Some s → controls !! i = Some q →
     (s = {[ 0 ]} → X q ∈ invert_ops ∧ q ∈ constrained sums controls) ∧
     (s = {[ 0; 1 ]} → q ∉ constrained sums controls) ∧
     (s ≠ {[ 0; 1 ]} → q ∈ constrained sums controls) ∧
     (length sums = length controls → (∀ q1 q2, X q1 = X q2 → q1 = q2) →
      s ≠ {[ 0 ]} → X q ∉ invert_ops)).
Proof.
  intros controls invert_ops Hsame Hsub Hunitary Hdims Hn Hsums Hnodup Htarget.
  assert (Hzip : ∀ i s q, sums !! i = Some s → controls !! i = Some q →
                   (s, q) ∈ zip sums controls).
  { intros i s q Hs Hq. apply list_elem_of_lookup. exists i.
    apply lookup_zip_with_Some. eauto. }
  assert (Hunique : ∀ i s q s', sums !! i = Some s → controls !! i = Some q →
                      (s', q) ∈ zip sums controls → s' = s).
  { intros i s q s' Hs Hq (j & Hj)%list_elem_of_lookup.
    apply lookup_zip_with_Some in Hj as (s0 & q0 & [= <- <-] & Hs' & Hq').
    assert (i = j) as -> by (by eapply NoDup_lookup). congruence. }
  split.
  - apply eq_spec in Hsame. unfold _decompose_with_context_.
    rewrite Hsame, Hsub. simpl. unfold brute_force.
    rewrite Hunitary, Hn, Hsums. simpl.
    replace (forallb _ qubits) with true.
    2:{ symmetry. apply forallb_forall. intros q Hq%list_elem_of_In.
        rewrite Forall_forall in Hdims. apply bool_decide_eq_true. by apply Hdims. }
    fold controls.
    pose proof (invert_loop_spec sums controls [] [] Hnodup) as Hloop.
    rewrite !app_nil_l in Hloop.
    rewrite Hloop, bind_Ok. by rewrite Htarget.
  - intros i s q Hs Hq. specialize (Hzip i s q Hs Hq). split_and!.
    + intros ->. split.
      * unfold invert_ops, flips. apply list_elem_of_fmap. exists q. split; [done|].
        apply list_elem_of_fmap. exists ({[ 0 ]}, q). split; [done|].
        by apply list_elem_of_filter.
      * unfold constrained. apply elem_of_app. left.
        apply list_elem_of_fmap. exists ({[ 0 ]}, q). split; [done|].
        apply list_elem_of_filter. split; [apply zero_not_full|done].
    + intros -> [Hin|Hin]%elem_of_app.
      * apply list_elem_of_fmap in Hin as ([s' q'] & -> & [Hne Hin]%list_elem_of_filter).
        simpl in *. by rewrite (Hunique i _ _ s' Hs Hq Hin) in Hne.
      * apply list_elem_of_lookup in Hin as (j & Hj). rewrite lookup_drop in Hj.
        assert (i = (length sums + j)%nat) as -> by (by eapply NoDup_lookup).
        apply lookup_lt_Some in Hs. lia.
    + intros Hne. unfold constrained. apply elem_of_app. left.
      apply list_elem_of_fmap. exists (s, q). split; [done|].
      by apply list_elem_of_filter.
    + intros Hlen Hinj Hne Hin. unfold invert_ops, flips in Hin.
      apply list_elem_of_fmap in Hin as (q' & ->%Hinj & Hin).
      apply list_elem_of_fmap in Hin as ([s' q''] & -> & [Hz Hin]%list_elem_of_filter).
      simpl in *. subst s'. by rewrite (Hunique i _ _ _ Hs Hq Hin) in Hne.
Qed.

(** *** Case 1: the global phase *)

(** C4 (controlled global phase).  For a constructed entity whose sub-gate
    acts on no qubit and has a unitary, on two-level qudits, when the earlier
    branches do not apply, the decomposition is the application to all the
    qubits of one diagonal gate, whose angles, one for each index of the
    control space, are the phase angle of the sub-gate at the indices that
    [expand()] enumerates and 0 at every other index; with one control on 1
    the angles are [0, theta]. *)
Theorem C4_global_phase self qubits context :
  let theta := angle (unitary (sub_gate self)) in
  let shape := control_qid_shape self in
  constructed self →
  controlled (sub_gate self) (num_controls self) (control_values self) shape =
    as_gate self →
  decompose_once_with_qubits (sub_gate self) (drop (num_controls self) qubits)
    (extracting_global_phases context) = NotImplemented →
  has_unitary (sub_gate self) = true →
  Forall (λ q, dimension q = 2) qubits →
  num_qubits (sub_gate self) = 0%nat →
  Forall (λ d, 0 ≤ d) shape →
  ∃ rads : list Angle,
    decompose self qubits context =
      (op ← plain_on (DiagonalGate rads) qubits; Ok (Value (Op op))) ∧
    length rads = np.size shape ∧
    (∀ k, (k < np.size shape)%nat →
       rads !! k =
       Some (if decide (k ∈ np.ravel shape <$> cv.expand (control_values self))
             then theta else zero)) ∧
    (control_values self = cv.ProductOfSums [ {[ 1 ]} ] → shape = [2] →
     rads = [zero; theta]).
Proof.
  intros theta shape (_ & _ & Hn & Hrange & Hwf & _)%constructed_invariant
    Hsame Hsub Hunitary Hdims Hzero Hshape.
  set (hots := cv.expand (control_values self)).
  exists (foldl (λ r hot, <[np.ravel shape hot := theta]> r)
            (replicate (np.size shape) zero) hots).
  split_and!.
  - apply eq_spec in Hsame. unfold _decompose_with_context_.
    fold shape in Hsame. fold shape. rewrite Hsame, Hsub. simpl. unfold brute_force.
    rewrite Hunitary, Hzero. simpl.
    replace (forallb _ qubits) with true.
    2:{ symmetry. apply forallb_forall. intros q Hq%list_elem_of_In.
        rewrite Forall_forall in Hdims. apply bool_decide_eq_true. by apply Hdims. }
    fold shape theta hots.
    rewrite zeros_nonnegative, bind_Ok by done.
    rewrite hot_loop_inserts, bind_Ok; [done| |by rewrite length_replicate].
    apply Forall_forall. intros hot Hhot. by eapply expand_valid.
  - by rewrite length_foldl_insert, length_replicate.
  - intros k Hk. apply lookup_foldl_insert. by apply lookup_replicate_2.
  - intros Hcv Hs. unfold hots. rewrite Hcv, Hs.
    by replace (cv.expand (cv.ProductOfSums [ {[ 1 ]} ])) with [[1]]
      by (vm_compute; reflexivity).
Qed.

End decomposition.

(** ** The properties on the small gate set *)

Lemma zero_one_controlled_constructed :
  constructed Demo.is_measurement Demo.has_mixture Demo.is_parameterized
    Demo.zero_one_controlled.
Proof.
  apply (constructed_plain _ _ _ (Demo.Rotation 3) None
           (Some (cv.Sequence [cv.OneValue 0; cv.OneValue 1])) None).
  - exact I.
  - vm_compute. reflexivity.
Qed.

Lemma controlled_phase_constructed :
  constructed Demo.is_measurement Demo.has_mixture Demo.is_parameterized
    Demo.controlled_phase.
Proof.
  apply (constructed_plain _ _ _ (Demo.GlobalPhase 7) None None None).
  - exact I.
  - vm_compute. reflexivity.
Qed.

Lemma C1_flattening_witness :
  Demo.construct (as_gate Demo.controlled_rotation) None
    (Some (cv.Sequence [cv.OneValue 0])) None =
  Ok Demo.zero_one_controlled.
Proof.
  apply (proj1 (C1_flattening Demo.is_measurement Demo.has_mixture
                  Demo.is_parameterized Demo.controlled_rotation None
                  (Some (cv.Sequence [cv.OneValue 0])) None));
    vm_compute; reflexivity.
Defined.

Lemma C2_flip_sandwich_witness :
  Demo.decompose Demo.zero_one_controlled [Demo.q 0; Demo.q 1; Demo.q 2] tt =
  Ok (Value (Ops (Op <$>
    [Demo.X (Demo.q 0)]
    ++ Demo.decompose_multi_controlled_rotation 3 [Demo.q 0; Demo.q 1] (Demo.q 2)
    ++ [Demo.X (Demo.q 0)]))).
Proof.
  apply (proj1 (C2_flip_sandwich Demo.is_measurement Demo.has_mixture
                  Demo.is_parameterized Demo.validate_args Demo.plain_on Demo.controlled
                  Demo.decompose_once_with_qubits (λ c, c) Demo.controlled_by
                  Demo.has_unitary Demo.num_qubits Demo.unitary (λ u : Z, u) 0
                  Demo.Diagonal Demo.X Demo.decompose_multi_controlled_rotation
                  Demo.zero_one_controlled [Demo.q 0; Demo.q 1; Demo.q 2] tt
                  [ {[ 0 ]}; {[ 1 ]} ] (Demo.q 2)
                  ltac:(vm_compute; reflexivity) ltac:(reflexivity)
                  ltac:(reflexivity)
                  ltac:(repeat constructor)
                  ltac:(reflexivity) ltac:(reflexivity)
                  ltac:(compute_done)
                  ltac:(reflexivity))).
Defined.

(** C2, as stated, at a rotation controlled by a qubit on 0 and a qubit on
    1: the qubit on 0 is among the controls passed to the synthesis, so the
    result is not the one in which only the qubit on 1 is passed. *)
Lemma C2_counterexample :
  Demo.q 0 ∈ constrained [ {[ 0 ]}; {[ 1 ]} ] [Demo.q 0; Demo.q 1] ∧
  strictly_on_one [ {[ 0 ]}; {[ 1 ]} ] [Demo.q 0; Demo.q 1] = [Demo.q 1] ∧
  Demo.decompose Demo.zero_one_controlled [Demo.q 0; Demo.q 1; Demo.q 2] tt ≠
  Ok (Value (Ops (Op <$>
    flips Demo.X [ {[ 0 ]}; {[ 1 ]} ] [Demo.q 0; Demo.q 1]
    ++ Demo.decompose_multi_controlled_rotation 3
         (strictly_on_one [ {[ 0 ]}; {[ 1 ]} ] [Demo.q 0; Demo.q 1]) (Demo.q 2)
    ++ flips Demo.X [ {[ 0 ]}; {[ 1 ]} ] [Demo.q 0; Demo.q 1]))).
Proof.
  split_and!.
  - compute_done.
  - vm_compute. reflexivity.
  - intros H. vm_compute in H. congruence.
Qed.

Lemma C4_global_phase_witness :
  ∃ rads : list Z,
    Demo.decompose Demo.controlled_phase [Demo.q 0] tt =
      Ok (Value (Op (GateOperation (Plain (Demo.Diagonal rads)) [Demo.q 0]))) ∧
    rads = [0; 7].
Proof.
  destruct (C4_global_phase Demo.is_measurement Demo.has_mixture
              Demo.is_parameterized Demo.validate_args Demo.plain_on
              Demo.controlled Demo.decompose_once_with_qubits (λ c, c)
              Demo.controlled_by Demo.has_unitary Demo.num_qubits Demo.unitary
              (λ u : Z, u) 0 Demo.Diagonal Demo.X
              Demo.decompose_multi_controlled_rotation
              Demo.controlled_phase [Demo.q 0] tt
              controlled_phase_constructed
              ltac:(vm_compute; reflexivity) ltac:(reflexivity)
              ltac:(reflexivity) ltac:(repeat constructor) ltac:(reflexivity)
              ltac:(repeat constructor; lia))
    as (rads & Hdecompose & _ & _ & Hangles).
  exists rads. split; [exact Hdecompose|].
  apply Hangles; reflexivity.
Defined.

(** Where the sub-gate has a controlled form of its own, branch 1 returns
    the application of that form: the global phase under one qubit on 1 is
    then decomposed into a rotation of the qubit, not into a diagonal
    gate, although the sub-gate acts on no qubit, has a unitary and the
    qubit has two levels. *)
Lemma C4_counterexample :
  let decomposed :=
    _decompose_with_context_ Demo.validate_args Demo.plain_on
      Demo.controlled_native Demo.decompose_once_with_qubits (λ c, c)
      Demo.controlled_by Demo.has_unitary Demo.num_qubits Demo.unitary
      (λ u : Z, u) 0 Demo.Diagonal Demo.X
      Demo.decompose_multi_controlled_rotation
      Demo.controlled_phase [Demo.q 0] tt in
  constructed Demo.is_measurement Demo.has_mixture Demo.is_parameterized
    Demo.controlled_phase ∧
  Demo.num_qubits (sub_gate Demo.controlled_phase) = 0%nat ∧
  Demo.has_unitary (sub_gate Demo.controlled_phase) = true ∧
  Forall (λ q, dimension q = 2) [Demo.q 0] ∧
  decomposed = Ok (Value (Op (GateOperation (Plain (Demo.Rotation 7)) [Demo.q 0]))) ∧
  ¬ ∃ rads,
      decomposed =
        Ok (Value (Op (GateOperation (Plain (Demo.Diagonal rads)) [Demo.q 0]))).
Proof.
  assert (Hdecomposed :
    _decompose_with_context_ Demo.validate_args Demo.plain_on
      Demo.controlled_native Demo.decompose_once_with_qubits (λ c, c)
      Demo.controlled_by Demo.has_unitary Demo.num_qubits Demo.unitary
      (λ u : Z, u) 0 Demo.Diagonal Demo.X
      Demo.decompose_multi_controlled_rotation
      Demo.controlled_phase [Demo.q 0] tt =
    Ok (Value (Op (GateOperation (Plain (Demo.Rotation 7)) [Demo.q 0]))))
    by (vm_compute; reflexivity).
  cbv zeta. rewrite Hdecomposed.
  split_and!; [exact controlled_phase_constructed|reflexivity|reflexivity|
               repeat constructor|reflexivity|].
  intros [rads [=]].
Qed.

Lemma C5_application_witness :
  Demo.apply Demo.controlled_x [Demo.q 0; Demo.q 1] =
  Ok (ControlledOperation [Demo.q 0]
        (GateOperation (Plain Demo.XGate) [Demo.q 1])
        (cv.ProductOfSums [ {[ 1 ]} ])).
Proof.
  apply (proj1 (proj2 (C5_application Demo.validate_args Demo.plain_on
                         Demo.controlled_x)) [Demo.q 0; Demo.q 1]).
  - discriminate.
  - vm_compute. reflexivity.
  - reflexivity.
Defined.

Lemma C7_defaults_witness :
  Demo.construct (Plain Demo.XGate) None None None = Ok Demo.controlled_x.
Proof.
  destruct (C7_defaults Demo.is_measurement Demo.has_mixture Demo.is_parameterized
              (Plain Demo.XGate)) as (_ & _ & _ & Hdefault & _).
  apply Hdefault. reflexivity.
Defined.

Lemma C8_pow_delegates_witness :
  Demo.power Demo.zero_one_controlled 2 =
  Ok (Value {| sub_gate := Plain (Demo.Rotation 6);
               control_values := cv.ProductOfSums [ {[ 0 ]}; {[ 1 ]} ];
               control_qid_shape := [2; 2] |}).
Proof.
  apply (proj2 (proj2 (C8_pow_delegates Demo.is_measurement Demo.has_mixture
                         Demo.is_parameterized Demo.pow
                         Demo.zero_one_controlled 2))
           (Plain (Demo.Rotation 6)) zero_one_controlled_constructed);
    reflexivity.
Defined.

Lemma C9_json_round_trip_witness :
  Demo.from_json (_json_dict_ Demo.zero_one_controlled) =
  Some (Ok Demo.zero_one_controlled).
Proof.
  apply (C9_json_round_trip Demo.is_measurement Demo.has_mixture
           Demo.is_parameterized Demo.zero_one_controlled
           zero_one_controlled_constructed).
Defined.

Lemma C10_frame_witness :
  Demo.power Demo.zero_one_controlled 2 =
  Ok (Value {| sub_gate := Plain (Demo.Rotation 6);
               control_values := control_values Demo.zero_one_controlled;
               control_qid_shape := control_qid_shape Demo.zero_one_controlled |}) ∧
  Demo.resolve Demo.zero_one_controlled 5 true =
  Ok {| sub_gate := Plain (Demo.Rotation 3);
        control_values := control_values Demo.zero_one_controlled;
        control_qid_shape := control_qid_shape Demo.zero_one_controlled |}.
Proof.
  destruct (C10_frame Demo.is_measurement Demo.has_mixture Demo.is_parameterized
              Demo.pow Demo.resolve_parameters Demo.zero_one_controlled
              zero_one_controlled_constructed) as [Hpow Hresolve].
  split.
  - apply (proj2 (Hpow 2 (Demo.Rotation 6) eq_refl)). reflexivity.
  - apply (proj2 (Hresolve 5 true (Demo.Rotation 3) eq_refl)). reflexivity.
Defined.

(** ** Further evaluations on the small gate set *)

(** [expand()] on the sets [{1}] and [{0, 1}] yields the assignments (1, 0)
    and (1, 1). *)
Example expand_one_and_any :
  list_to_set (cv.expand (cv.ProductOfSums [ {[ 1 ]}; {[ 0; 1 ]} ])) =
  ({[ [1; 0]; [1; 1] ]} : gset (list Z)).
Proof. vm_compute. reflexivity. Qed.

(** Two control values for three controls are refused. *)
Example construct_count_mismatch :
  Demo.construct (Plain Demo.XGate) (Some 3)
    (Some (cv.Sequence [cv.OneValue 1; cv.OneValue 1])) None =
  Raise NumQubitsMismatch.
Proof. vm_compute. reflexivity. Qed.

(** The value 2 on a two-level control is refused. *)
Example construct_out_of_range :
  Demo.construct (Plain Demo.XGate) None (Some (cv.Sequence [cv.OneValue 2])) None =
  Raise ControlValueOutOfRange.
Proof. vm_compute. reflexivity. Qed.

(** A measurement and a channel without a mixture are refused. *)
Example construct_measurement :
  Demo.construct (Plain Demo.Measure) None None None = Raise CannotControlMeasurement ∧
  Demo.construct (Plain Demo.Reset) None None None = Raise CannotControlNonUnitaryChannel.
Proof. split; vm_compute; reflexivity. Qed.

(** When the exponentiated sub-gate is itself a controlled gate the
    construction absorbs it and the control fields grow. *)
Example pow_absorbs_controlled_result :
  __pow__ Demo.is_measurement Demo.has_mixture Demo.is_parameterized
    (λ _ (_ : Z), Value (as_gate Demo.controlled_rotation))
    Demo.zero_one_controlled 2 =
  Ok (Value {| sub_gate := Plain (Demo.Rotation 3);
               control_values := cv.ProductOfSums [ {[ 0 ]}; {[ 1 ]}; {[ 1 ]} ];
               control_qid_shape := [2; 2; 2] |}).
Proof. vm_compute. reflexivity. Qed.

(** A control that accepts both values is dropped from the controls of the
    synthesis and gets no flip. *)
Example redecompose_halved_rotation :
  Demo.redecompose_with Demo.decompose_halving 4 tt Demo.rotation_application =
    Some (Ok (replicate 3
      (GateOperation (Plain (Demo.MultiControlledRotation 1))
         [Demo.q 0; Demo.q 1]))).
Proof. vm_compute. reflexivity. Qed.

Example decompose_drops_unconstrained_control :
  Demo.decompose
    {| sub_gate := Plain (Demo.Rotation 3);
       control_values := cv.ProductOfSums [ {[ 0; 1 ]}; {[ 1 ]} ];
       control_qid_shape := [2; 2] |}
    [Demo.q 0; Demo.q 1; Demo.q 2] tt =
  Ok (Value (Ops [Op (GateOperation (Plain (Demo.MultiControlledRotation 3))
                        [Demo.q 1; Demo.q 2])])).
Proof. vm_compute. reflexivity. Qed.

(** * Further properties of the class *)

(** ** More on the control-value model *)

Lemma pairwise_nil_l ys : cv.pairwise [[]] ys = ys.
Proof.
  unfold cv.pairwise. rewrite bind_singleton.
  induction ys as [|y ys IH]; [done|]. rewrite bind_cons.
  change ([[] ++ y]) with [y]. simpl. f_equal. exact IH.
Qed.

Lemma combine_empty_l c : cv.ProductOfSums [] &&& c = c.
Proof.
  destruct c as [sums|cs]; [done|]. unfold cv.combine, cv.conjunctions_of.
  f_equal. apply pairwise_nil_l.
Qed.

Lemma pairwise_app_l xs xs' ys :
  cv.pairwise (xs ++ xs') ys = cv.pairwise xs ys ++ cv.pairwise xs' ys.
Proof. unfold cv.pairwise. apply bind_app. Qed.

Lemma pairwise_cons_l x xs ys :
  cv.pairwise (x :: xs) ys = ((x ++.) <$> ys) ++ cv.pairwise xs ys.
Proof.
  unfold cv.pairwise. rewrite bind_cons. f_equal.
Qed.

Lemma pairwise_fmap_l x ys zs :
  cv.pairwise ((x ++.) <$> ys) zs = (x ++.) <$> cv.pairwise ys zs.
Proof.
  induction ys as [|y ys IH]; [done|].
  rewrite fmap_cons, !pairwise_cons_l, fmap_app, IH. f_equal.
  rewrite <- list_fmap_compose. apply list_fmap_ext. intros _ z _. simpl.
  by rewrite app_assoc.
Qed.

Lemma pairwise_assoc xs ys zs :
  cv.pairwise (cv.pairwise xs ys) zs = cv.pairwise xs (cv.pairwise ys zs).
Proof.
  induction xs as [|x xs IH]; [done|].
  by rewrite !pairwise_cons_l, pairwise_app_l, IH, pairwise_fmap_l.
Qed.

Lemma combine_assoc a b c : (a &&& b) &&& c = a &&& (b &&& c).
Proof.
  destruct a as [x|xs], b as [y|ys], c as [z|zs];
    unfold cv.combine, cv.conjunctions_of; f_equal;
    first [ symmetry; apply app_assoc
          | rewrite pairwise_assoc; reflexivity
          | rewrite <- pairwise_assoc; reflexivity ].
Qed.

Lemma is_trivial_spec c :
  cv.is_trivial c = true → c = cv.ProductOfSums (replicate (cv.num_qubits c) {[ 1 ]}).
Proof. unfold cv.is_trivial. by intros ?%bool_decide_eq_true. Qed.

Lemma all_two_replicate (shape : list Z) :
  list_to_set shape = ({[ 2 ]} : gset Z) → shape = replicate (length shape) 2.
Proof.
  intros Hset. symmetry. apply replicate_as_Forall. split; [done|].
  apply Forall_forall. intros d Hd.
  assert (d ∈ ({[ 2 ]} : gset Z)) as ->%elem_of_singleton; [|done].
  rewrite <- Hset. by apply elem_of_list_to_set.
Qed.

(** ** More on the constructor *)

Section more_construction.

Context {BaseGate : Type} `{!EqDecision BaseGate}.
Context (is_measurement has_mixture is_parameterized : @Gate BaseGate → bool).
Context (plain_qid_shape : BaseGate → list Z).
Context (gate_repr : @Gate BaseGate → string).
Context (control_values_repr : cv.ControlValues → string).
Context {Exponent Resolver : Type}.
Context (pow : @Gate BaseGate → Exponent → Supported (@Gate BaseGate)).
Context (resolve_parameters : @Gate BaseGate → Resolver → bool → @Gate BaseGate).

Local Abbreviation validate_sub := (_validate_sub_object is_measurement has_mixture is_parameterized).
Local Abbreviation init := (__init__ is_measurement has_mixture is_parameterized).
Local Abbreviation constructed := (constructed is_measurement has_mixture is_parameterized).
Local Abbreviation power := (__pow__ is_measurement has_mixture is_parameterized pow).
Local Abbreviation resolve :=
  (_resolve_parameters_ is_measurement has_mixture is_parameterized resolve_parameters).

Implicit Types (sub : @Gate BaseGate) (g self inner : @ControlledGate BaseGate).
Implicit Types (nc : option Z) (cvs : option cv.Argument) (shape : option (list Z)).

(** X1.  Every entity that constructions produce has a sub-gate that is not
    a controlled gate, is not a measurement and has a mixture or is
    parameterized; it has as many control dimensions as its control values
    have qudits; and no accepted value is outside the dimension of its
    qudit. *)
Theorem X1_construction_invariant self :
  constructed self →
  (∃ b, sub_gate self = Plain b) ∧
  is_measurement (sub_gate self) = false ∧
  (_has_mixture_ has_mixture self = true ∨
   _is_parameterized_ is_parameterized self = true) ∧
  cv.num_qubits (control_values self) = num_controls self ∧
  ¬ cv.out_of_range (control_values self) (control_qid_shape self) ∧
  (∀ k, control_values self ≠ cv.SumOfProducts [k]).
Proof.
  intros (Hb & Hsub & Hn & Hrange & _ & Hsimp)%constructed_invariant.
  apply validate_sub_ok_iff in Hsub as [Hm Hmix].
  split_and!; try done.
  - by apply validate_ok_iff.
  - by apply simplify_fixed.
Qed.

(** X2.  Which error a construction raises: the measurement error whenever
    the sub-gate is a measurement; else the non-unitary error whenever it
    has no mixture and is not parameterized; else the count error whenever
    the number of controls is not the number of qudits of the control
    values; else the shape error whenever the shape has another length;
    else the out-of-range error whenever an accepted value is out of range. *)
Theorem X2_error_precedence sub nc cvs shape :
  let n := declared_num_controls nc cvs shape in
  let v := declared_control_values nc cvs shape in
  let c := declared_control_qid_shape nc cvs shape in
  (init sub nc cvs shape = Raise CannotControlMeasurement ↔
     is_measurement sub = true) ∧
  (init sub nc cvs shape = Raise CannotControlNonUnitaryChannel ↔
     is_measurement sub = false ∧ has_mixture sub = false ∧
     is_parameterized sub = false) ∧
  (init sub nc cvs shape = Raise NumQubitsMismatch ↔
     validate_sub sub = Ok tt ∧ n ≠ Z.of_nat (cv.num_qubits v)) ∧
  (init sub nc cvs shape = Raise ControlQidShapeMismatch ↔
     validate_sub sub = Ok tt ∧ n = Z.of_nat (cv.num_qubits v) ∧
     n ≠ Z.of_nat (length c)) ∧
  (init sub nc cvs shape = Raise ControlValueOutOfRange ↔
     validate_sub sub = Ok tt ∧ n = Z.of_nat (cv.num_qubits v) ∧
     n = Z.of_nat (length c) ∧ cv.out_of_range v c).
Proof.
  intros n v c. rewrite init_declared. fold n v c.
  pose proof (validate_raise_iff v c) as Hout.
  unfold _validate_sub_object.
  destruct (is_measurement sub); cbn; [by split_and!; split; intros; destruct_and?|].
  destruct (has_mixture sub), (is_parameterized sub); cbn;
    try (by split_and!; split; intros; destruct_and?).
  all: repeat case_decide;
    try (by split_and!; split; intros; destruct_and?).
  all: destruct (validate_cases v c) as [Hv|Hv]; rewrite Hv in *; cbn;
    split_and!; split; intros; destruct_and?; try done.
  all: try (split_and!; try done; by apply Hout).
  all: match goal with H : cv.out_of_range _ _ |- _ => by apply Hout in H end.
Qed.

(** X3.  A negative number of controls is always refused: once the
    sub-gate is accepted the error is the count error, whatever the control
    values and the shape are. *)
Theorem X3_negative_num_controls sub n cvs shape :
  n < 0 →
  raises (init sub (Some n) cvs shape) ∧
  (validate_sub sub = Ok tt → init sub (Some n) cvs shape = Raise NumQubitsMismatch).
Proof.
  intros Hn. rewrite init_declared. cbn.
  destruct (validate_sub sub) as [[]|e]; cbn; [|split; [by eexists|done]].
  rewrite decide_True by lia. split; [by eexists|done].
Qed.

(** X4.  The qid shape of a constructed entity is the declared control
    shape followed by the qid shape of the sub-gate that was given, also
    when that sub-gate is a controlled gate and is absorbed; its length is
    the number of controls plus the number of qudits of the stored
    sub-gate. *)
Theorem X4_qid_shape sub nc cvs shape g :
  init sub nc cvs shape = Ok g →
  _qid_shape_ plain_qid_shape g =
    declared_control_qid_shape nc cvs shape ++ qid_shape plain_qid_shape sub ∧
  length (_qid_shape_ plain_qid_shape g) =
    (num_controls g + length (qid_shape plain_qid_shape (sub_gate g)))%nat.
Proof.
  intros (_ & _ & _ & _ & ->)%init_ok_iff. unfold _qid_shape_, num_controls.
  split; [|by rewrite length_app].
  destruct sub as [b|inner_sub inner_values inner_shape]; simpl; [done|].
  by rewrite app_assoc.
Qed.

(** X5.  Adding no control to a controlled gate gives the gate back. *)
Theorem X5_no_controls self :
  validate_sub (as_gate self) = Ok tt →
  init (as_gate self) (Some 0) None None = Ok self.
Proof.
  intros Hsub. apply init_ok_iff. split_and!; try done.
  rewrite absorb_as_gate. cbn. rewrite combine_empty_l. by destruct self.
Qed.

(** X6.  Adding controls in two steps gives the entity that adding all of
    them in one step gives: the control values of the second step combined
    with those of the first, and the shape of the second step followed by
    that of the first. *)
Theorem X6_two_steps sub first_values first_shape second_values second_shape g2 g3 :
  cv.well_formed first_values → cv.well_formed second_values →
  init sub None (Some (cv.Object first_values)) (Some first_shape) = Ok g2 →
  init (as_gate g2) None (Some (cv.Object second_values)) (Some second_shape) = Ok g3 →
  init sub None
    (Some (cv.Object (cv.simplify second_values &&& cv.simplify first_values)))
    (Some (second_shape ++ first_shape)) = Ok g3.
Proof.
  intros Hwf1 Hwf2 (Hsub & _ & Hn1 & Hr1 & ->)%init_ok_iff
    (_ & _ & Hn2 & Hr2 & ->)%init_ok_iff.
  cbn in *.
  pose proof (resolve_well_formed (cv.Object first_values) Hwf1) as Hw1.
  pose proof (resolve_well_formed (cv.Object second_values) Hwf2) as Hw2.
  pose proof (resolve_simplified (cv.Object first_values)) as Hs1.
  pose proof (resolve_simplified (cv.Object second_values)) as Hs2.
  cbn in Hw1, Hw2, Hs1, Hs2.
  apply init_ok_iff. cbn. rewrite simplify_combine by done.
  split_and!; try done.
  - rewrite num_qubits_combine, length_app by done. lia.
  - apply validate_combine; try done. lia.
  - destruct sub as [b|inner_sub inner_values inner_shape]; simpl; [done|].
    by rewrite combine_assoc, app_assoc.
Qed.

(** X8.  When the exponentiated sub-gate is itself a controlled gate that
    may be controlled, the power of a constructed entity absorbs it: the
    controls of the entity are followed by those of the exponentiated
    sub-gate, so their number is the sum. *)
Theorem X8_pow_absorbs self exponent inner :
  constructed self →
  pow (sub_gate self) exponent = Value (as_gate inner) →
  validate_sub (as_gate inner) = Ok tt →
  ∃ r, power self exponent = Ok (Value r) ∧
       sub_gate r = sub_gate inner ∧
       control_values r = control_values self &&& control_values inner ∧
       control_qid_shape r = control_qid_shape self ++ control_qid_shape inner ∧
       num_controls r = (num_controls self + num_controls inner)%nat.
Proof.
  intros Hself%constructed_invariant Hpow Hsub. unfold __pow__.
  rewrite Hpow, init_same_controls, Hsub by done. rewrite !bind_Ok.
  eexists. split; [done|]. rewrite absorb_as_gate. unfold num_controls. simpl.
  split_and!; try done. apply length_app.
Qed.

(** X9.  The printed form of a constructed entity is the text of a call of
    the constructor, and that call constructs the entity: the arguments
    that the two short forms leave out are the defaults of the
    constructor. *)
Theorem X9_repr_round_trip self :
  constructed self →
  ∃ (n : option nat) (values : option cv.ControlValues) (shape : option (list Z)),
    __repr__ gate_repr control_values_repr self =
      call_text gate_repr control_values_repr (sub_gate self) n values shape ∧
    init (sub_gate self) (Z.of_nat <$> n) (cv.Object <$> values) shape = Ok self.
Proof.
  intros Hself.
  pose proof (constructed_invariant _ _ _ _ Hself)
    as ([b Hb] & Hsub & Hn & Hrange & Hwf & Hsimp).
  unfold __repr__.
  destruct (bool_decide (control_qid_shape self = [2])) eqn:Hshape;
    destruct (cv.is_trivial (control_values self)) eqn:Htrivial; simpl.
  - exists None, None, None. split; [done|].
    apply bool_decide_eq_true in Hshape. apply is_trivial_spec in Htrivial.
    cbn [fmap option_fmap option_map]. apply init_ok_iff. cbn.
    split_and!; try done.
    rewrite Hb. simpl. destruct self as [s v c]; simpl in *. subst s c.
    simpl in Hn. by rewrite Htrivial, Hn.
  - exists None, (Some (control_values self)), (Some (control_qid_shape self)).
    split; [done|]. cbn [fmap option_fmap option_map].
    apply init_ok_iff. cbn. rewrite Hsimp.
    split_and!; try done; [lia|]. rewrite Hb. simpl.
    destruct self; simpl in *; by subst.
  - destruct (bool_decide (list_to_set (control_qid_shape self) = {[ 2 ]})) eqn:Hall.
    + exists (Some (num_controls self)), None, None. split; [done|].
      apply bool_decide_eq_true, all_two_replicate in Hall.
      apply is_trivial_spec in Htrivial.
      cbn [fmap option_fmap option_map]. apply init_ok_iff. cbn.
      rewrite ?Nat2Z.id, ?length_replicate. unfold num_controls in *.
      split_and!; try done; try (by rewrite ?length_replicate);
        try apply validate_default.
      rewrite Hb. simpl. destruct self as [s v c]; simpl in *. subst s.
      f_equal; [by rewrite <- Hn|done].
    + exists None, (Some (control_values self)), (Some (control_qid_shape self)).
      split; [done|]. cbn [fmap option_fmap option_map].
      apply init_ok_iff. cbn. rewrite Hsimp.
      split_and!; try done; [lia|]. rewrite Hb. simpl.
      destruct self; simpl in *; by subst.
  - exists None, (Some (control_values self)), (Some (control_qid_shape self)).
    split; [done|]. cbn [fmap option_fmap option_map].
    apply init_ok_iff. cbn. rewrite Hsimp.
    split_and!; try done; [lia|]. rewrite Hb. simpl.
    destruct self; simpl in *; by subst.
Qed.

(** X16.  The payload determines the entity: two entities with the same
    payload are the same entity, constructed or not. *)
Theorem X16_json_dict_injective g1 g2 :
  _json_dict_ g1 = _json_dict_ g2 → g1 = g2.
Proof.
  intros Heq.
  assert (H1 : _json_dict_ g1 !! "control_values" = _json_dict_ g2 !! "control_values")
    by by rewrite Heq.
  assert (H2 : _json_dict_ g1 !! "control_qid_shape" =
               _json_dict_ g2 !! "control_qid_shape") by by rewrite Heq.
  assert (H3 : _json_dict_ g1 !! "sub_gate" = _json_dict_ g2 !! "sub_gate")
    by by rewrite Heq.
  change (Some (@ControlValuesField BaseGate (control_values g1)) =
          Some (@ControlValuesField BaseGate (control_values g2))) in H1.
  change (Some (@ShapeField BaseGate (control_qid_shape g1)) =
          Some (@ShapeField BaseGate (control_qid_shape g2))) in H2.
  change (Some (GateField (sub_gate g1)) = Some (GateField (sub_gate g2))) in H3.
  destruct g1, g2; simpl in *. congruence.
Qed.

End more_construction.

(** ** The loop of case 2 on any qubits *)

Section flip_loop.

Context {BaseGate : Type}.
Context (X : Qid → @Operation BaseGate).

Lemma list_remove_elem q l :
  q ∈ l → ∃ l', list_remove q l = Ok l' ∧ l ≡ₚ q :: l'.
Proof.
  induction l as [|y l IH]; intros Hq; [by apply elem_of_nil in Hq|]. simpl.
  destruct (decide (q = y)) as [->|Hne]; [by eexists|].
  destruct IH as (l' & -> & Hperm); [set_solver|].
  exists (y :: l'). split; [done|]. rewrite Hperm. apply Permutation_swap.
Qed.

Lemma snd_zip_submseteq {A B} (l : list A) (k : list B) : (zip l k).*2 ⊆+ k.
Proof.
  revert k. induction l as [|x l IH]; intros [|y k]; simpl;
    try apply submseteq_nil_l.
  apply submseteq_skip, IH.
Qed.

Lemma invert_loop_total pairs invert_ops control_qubits :
  pairs.*2 ⊆+ control_qubits →
  ∃ ops rest, invert_loop X pairs invert_ops control_qubits = Ok (ops, rest) ∧
              rest ⊆+ control_qubits.
Proof.
  revert invert_ops control_qubits.
  induction pairs as [|[s q] pairs IH]; intros invert_ops control_qubits Hsub; simpl.
  { by exists invert_ops, control_qubits. }
  simpl in Hsub.
  pose proof Hsub as (k & Hperm & Hrest)%submseteq_cons_l.
  assert (Hkeep : pairs.*2 ⊆+ control_qubits).
  { etrans; [exact Hrest|]. rewrite Hperm. by apply submseteq_cons. }
  destruct (decide (s = {[ 0 ]})); [by apply IH|].
  destruct (decide (s = {[ 0; 1 ]})); [|by apply IH].
  destruct (list_remove_elem q control_qubits) as (l' & -> & Hperm').
  { rewrite Hperm. left. }
  rewrite bind_Ok.
  destruct (IH invert_ops l') as (ops & rest & -> & Hsubrest).
  { rewrite Hperm in Hperm'. apply Permutation_cons_inv in Hperm'.
    by rewrite <- Hperm'. }
  exists ops, rest. split; [done|].
  etrans; [exact Hsubrest|]. rewrite Hperm'. by apply submseteq_cons.
Qed.

Lemma invert_loop_flips pairs invert_ops control_qubits ops rest :
  invert_loop X pairs invert_ops control_qubits = Ok (ops, rest) →
  ∀ op, op ∈ ops → op ∈ invert_ops ∨ ∃ q, q ∈ pairs.*2 ∧ op = X q.
Proof.
  revert invert_ops control_qubits.
  induction pairs as [|[s q] pairs IH]; intros invert_ops control_qubits; simpl.
  { intros [= <- <-] op Hop. by left. }
  assert (Hlater : ∀ acc cq, invert_loop X pairs acc cq = Ok (ops, rest) →
            (∀ op, op ∈ acc → op ∈ invert_ops ∨ op = X q) →
            ∀ op, op ∈ ops → op ∈ invert_ops ∨ ∃ q', q' ∈ q :: pairs.*2 ∧ op = X q').
  { intros acc cq Hloop Hacc op Hop.
    destruct (IH _ _ Hloop op Hop) as [Hin|(q' & Hq' & ->)].
    - destruct (Hacc op Hin) as [?| ->]; [by left|].
      right. exists q. split; [left|done].
    - right. exists q'. split; [by right|done]. }
  destruct (decide (s = {[ 0 ]})).
  { intros Hloop. apply (Hlater _ _ Hloop).
    intros op [?| ->%list_elem_of_singleton]%elem_of_app; [by left|by right]. }
  destruct (decide (s = {[ 0; 1 ]})).
  - destruct (list_remove q control_qubits) as [l'|err] eqn:Hremove; [|done].
    rewrite bind_Ok. intros Hloop. apply (Hlater _ _ Hloop). by left.
  - intros Hloop. apply (Hlater _ _ Hloop). by left.
Qed.

(** X12.  The loop of case 2 over the control qubits never fails, whatever
    the qubits and the number of controls, also when a qubit is repeated:
    every qubit that it removes from the list of control qubits is still in
    the list when it is removed.  The list that it leaves is a sub-list, up
    to the order, of the first qubits, and every operation that it collects
    is the flip of one of them. *)
Theorem X12_flip_loop_total (sums : list (gset Z)) (n : nat) qubits :
  ∃ invert_ops rest,
    invert_loop X (zip sums (take n qubits)) [] (take n qubits) =
      Ok (invert_ops, rest) ∧
    rest ⊆+ take n qubits ∧
    ∀ op, op ∈ invert_ops → ∃ q, q ∈ take n qubits ∧ op = X q.
Proof.
  destruct (invert_loop_total (zip sums (take n qubits)) [] (take n qubits))
    as (invert_ops & rest & Hloop & Hrest); [apply snd_zip_submseteq|].
  exists invert_ops, rest. split_and!; [done..|].
  intros op Hop.
  destruct (invert_loop_flips _ _ _ _ _ Hloop op Hop) as [Hnil|(q & Hq & ->)].
  { by apply elem_of_nil in Hnil. }
  exists q. split; [|done].
  eapply elem_of_submseteq; [exact Hq|apply snd_zip_submseteq].
Qed.

End flip_loop.

(** ** More on application and decomposition *)

Section more_decomposition.

Context {BaseGate : Type} `{!EqDecision BaseGate}.
Context (validate_args : @Gate BaseGate → list Qid → Result unit).
Context (plain_on : BaseGate → list Qid → Result (@Operation BaseGate)).
Context {DecompositionContext Matrix Angle : Type}.
Context (controlled : @Gate BaseGate → nat → cv.ControlValues → list Z → @Gate BaseGate).
Context (decompose_once_with_qubits :
  @Gate BaseGate → list Qid → DecompositionContext → Supported (@OP_TREE BaseGate)).
Context (extracting_global_phases : DecompositionContext → DecompositionContext).
Context (controlled_by :
  @Operation BaseGate → list Qid → cv.ControlValues → @Operation BaseGate).
Context (has_unitary : @Gate BaseGate → bool) (num_qubits : @Gate BaseGate → nat).
Context (unitary : @Gate BaseGate → Matrix).
Context (angle : Matrix → Angle) (zero : Angle).
Context (DiagonalGate : list Angle → BaseGate).
Context (X : Qid → @Operation BaseGate).
Context (decompose_multi_controlled_rotation :
  Matrix → list Qid → Qid → list (@Operation BaseGate)).
Context (for_gate : @Gate BaseGate → list Qid).
Context {Mixture ApplyUnitaryArgs Array : Type}.
Context (operation_apply_unitary :
  @Operation BaseGate → ApplyUnitaryArgs → Supported Array).
Context (operation_unitary : @Operation BaseGate → Supported Matrix).
Context (operation_mixture : @Operation BaseGate → Supported Mixture).

Local Abbreviation apply_gate := (gate_on validate_args plain_on).
Local Abbreviation apply_self := (on validate_args plain_on).
Local Abbreviation brute := (brute_force plain_on has_unitary num_qubits unitary
  angle zero DiagonalGate X decompose_multi_controlled_rotation).
Local Abbreviation decompose := (_decompose_with_context_ validate_args plain_on
  controlled decompose_once_with_qubits extracting_global_phases controlled_by
  has_unitary num_qubits unitary angle zero DiagonalGate X
  decompose_multi_controlled_rotation).

Implicit Types (self : @ControlledGate BaseGate) (qubits : list Qid).

(** X10.  The unitary, the mixture and the action on a state of an entity
    are those of the operation that applying the entity to the line qudits
    of its shape yields, whenever that application succeeds.  They do not
    check for an empty sequence: for an entity over no qudit at all the
    application raises the empty-application error while they still
    evaluate the controlled operation over no qudit. *)
Theorem X10_unitary_of_application self :
  (∀ op, apply_self self (for_gate (as_gate self)) = Ok op →
     _unitary_ validate_args plain_on for_gate operation_unitary self =
       Ok (operation_unitary op) ∧
     _mixture_ validate_args plain_on for_gate operation_mixture self =
       Ok (operation_mixture op) ∧
     ∀ args,
       _apply_unitary_ validate_args plain_on for_gate operation_apply_unitary
         self args = Ok (operation_apply_unitary op args)) ∧
  (∀ op, for_gate (as_gate self) = [] →
     apply_gate (sub_gate self) [] = Ok op →
     apply_self self (for_gate (as_gate self)) = Raise EmptyQubits ∧
     _unitary_ validate_args plain_on for_gate operation_unitary self =
       Ok (operation_unitary (ControlledOperation [] op (control_values self)))).
Proof.
  unfold _unitary_, _mixture_, _apply_unitary_, on, num_controls. split.
  - intros op. unfold as_gate at 1. simpl.
    destruct (for_gate (as_gate self)) as [|q qubits]; [done|].
    rewrite decide_False by done.
    destruct (validate_args _ _) as [[]|e]; cbn; [|done].
    destruct (gate_on _ _ _ _) as [sub_operation|e]; cbn; [|done].
    by intros [= <-].
  - intros op Hempty Hsub. rewrite Hempty. split; [done|].
    rewrite drop_nil, take_nil, Hsub. done.
Qed.

(** X11.  The last resort answers that there is no decomposition exactly
    when the sub-gate has no unitary, or some qubit is not two-level, or the
    sub-gate acts on two or more qubits, or it acts on one qubit and the
    control values are a sum of products. *)
Theorem X11_brute_force_exhaustion self qubits :
  brute self qubits = Ok NotImplemented ↔
  has_unitary (sub_gate self) = false ∨
  ¬ Forall (λ q, dimension q = 2) qubits ∨
  (2 ≤ num_qubits (sub_gate self))%nat ∨
  (num_qubits (sub_gate self) = 1%nat ∧ ∃ cs, control_values self = cv.SumOfProducts cs).
Proof.
  unfold brute_force.
  assert (Hdims : forallb (λ q, bool_decide (dimension q = 2)) qubits = true ↔
                  Forall (λ q, dimension q = 2) qubits).
  { rewrite forallb_forall, Forall_forall. split.
    - intros H q Hq%list_elem_of_In. by eapply bool_decide_eq_true_1, H.
    - intros H q Hq%list_elem_of_In. by eapply bool_decide_eq_true_2, H. }
  destruct (has_unitary (sub_gate self)); simpl; [|by split; [left|]].
  destruct (forallb _ qubits) eqn:Hall; simpl.
  2:{ split; [intros _|done]. right. left. by intros HF%Hdims. }
  assert (Htwo : Forall (λ q, dimension q = 2) qubits) by by apply Hdims.
  destruct (decide (num_qubits (sub_gate self) = 0%nat)) as [Hz|Hnz].
  - split.
    + destruct (np.zeros _ _) as [rads|e]; cbn; [|done].
      destruct (hot_loop _ _ _ _) as [rads'|e]; cbn; [|done].
      by destruct (plain_on _ _).
    + intros [?|[?|[?|[? _]]]]; try done; lia.
  - destruct (control_values self) as [sums|cs] eqn:Hcv.
    + destruct (decide (num_qubits (sub_gate self) = 1%nat)) as [Hone|Hmore].
      * split.
        -- destruct (invert_loop _ _ _ _) as [[invert_ops control_qubits]|e];
             cbn; [|done].
           by destruct (last qubits).
        -- intros [?|[?|[?|[_ [cs ?]]]]]; try done; lia.
      * split; [intros _|done]. right. right. left. lia.
    + split; [intros _|done].
      destruct (decide (num_qubits (sub_gate self) = 1%nat)); [|right; right; left; lia].
      right. right. right. eauto.
Qed.

(** *** Decomposing the sub-gate *)

Lemma eq_as_gate self : __eq__ self (as_gate self) = true.
Proof.
  unfold __eq__, as_gate. apply bool_decide_eq_true. by destruct self.
Qed.

Lemma leaves_transform (f : @Operation BaseGate → @Operation BaseGate) :
  ∀ root, leaves (transform_op_tree f root) = f <$> leaves root.
Proof.
  fix IH 1. intros [op|trees]; simpl; [done|].
  induction trees as [|tree trees IHtrees]; simpl; [done|].
  by rewrite IH, IHtrees, fmap_app.
Qed.

(** X13.  When the controlled form of the sub-gate is the entity itself and
    the sub-gate decomposes, the decomposition of the entity has the
    operations of that of the sub-gate, as many and in the same order, each
    one controlled by the first [num_controls] qubits with the control
    values of the entity; the sub-gate is decomposed on the remaining
    qubits. *)
Theorem X13_controls_distribute self qubits context result :
  controlled (sub_gate self) (num_controls self) (control_values self)
    (control_qid_shape self) = as_gate self →
  decompose_once_with_qubits (sub_gate self) (drop (num_controls self) qubits)
    (extracting_global_phases context) = Value result →
  ∃ tree,
    decompose self qubits context = Ok (Value tree) ∧
    leaves tree =
      (λ op, controlled_by op (take (num_controls self) qubits) (control_values self))
        <$> leaves result ∧
    length (leaves tree) = length (leaves result).
Proof.
  intros Hsame Hsub. unfold _decompose_with_context_.
  rewrite Hsame, eq_as_gate, Hsub. simpl. eexists. split; [done|].
  rewrite leaves_transform. split; [done|]. apply length_fmap.
Qed.

(** X15.  Which error an application raises: the empty-application error
    exactly on no qubit; otherwise the error of the validation of the
    qubits, if it refuses them; otherwise the error of the application of
    the sub-gate to the qubits after the controls, if that fails.  The
    errors of the collaborators come through unchanged. *)
Theorem X15_application_errors self qubits e :
  apply_self self qubits = Raise e ↔
  (qubits = [] ∧ e = EmptyQubits) ∨
  (qubits ≠ [] ∧ validate_args (as_gate self) qubits = Raise e) ∨
  (qubits ≠ [] ∧ validate_args (as_gate self) qubits = Ok tt ∧
   apply_gate (sub_gate self) (drop (num_controls self) qubits) = Raise e).
Proof.
  unfold on, num_controls. unfold as_gate at 1. simpl.
  destruct qubits as [|q qubits]; simpl.
  { split; [intros [= <-]; by left|]. intros [[_ ->]|[[? _]|[? _]]]; done. }
  destruct (validate_args _ _) as [[]|e'] eqn:Hvalid; cbn.
  - destruct (gate_on _ _ _ _) as [op|e'] eqn:Hsub; cbn.
    + split; [done|]. intros [[? _]|[[_ ?]|(_ & _ & ?)]]; done.
    + split.
      * intros [= <-]. right. right. done.
      * intros [[? _]|[[_ ?]|(_ & _ & [= <-])]]; done.
  - split.
    + intros [= <-]. right. left. done.
    + intros [[? _]|[[_ [= <-]]|(_ & ? & _)]]; done.
Qed.

End more_decomposition.

(** ** Decomposing again *)

Section redecomposition.

Context {BaseGate : Type} `{!EqDecision BaseGate}.
Context (validate_args : @Gate BaseGate → list Qid → Result unit).
Context (plain_on : BaseGate → list Qid → Result (@Operation BaseGate)).
Context {DecompositionContext Matrix Angle : Type}.
Context (controlled : @Gate BaseGate → nat → cv.ControlValues → list Z → @Gate BaseGate).
Context (decompose_once_with_qubits :
  @Gate BaseGate → list Qid → DecompositionContext → Supported (@OP_TREE BaseGate)).
Context (extracting_global_phases : DecompositionContext → DecompositionContext).
Context (controlled_by :
  @Operation BaseGate → list Qid → cv.ControlValues → @Operation BaseGate).
Context (has_unitary : @Gate BaseGate → bool) (num_qubits : @Gate BaseGate → nat).
Context (unitary : @Gate BaseGate → Matrix).
Context (angle : Matrix → Angle) (zero : Angle).
Context (DiagonalGate : list Angle → BaseGate).
Context (X : Qid → @Operation BaseGate).
Context (decompose_multi_controlled_rotation :
  Matrix → list Qid → Qid → list (@Operation BaseGate)).

Local Abbreviation apply_gate := (gate_on validate_args plain_on).
Local Abbreviation brute := (brute_force plain_on has_unitary num_qubits unitary
  angle zero DiagonalGate X decompose_multi_controlled_rotation).
Local Abbreviation decompose := (_decompose_with_context_ validate_args plain_on
  controlled decompose_once_with_qubits extracting_global_phases controlled_by
  has_unitary num_qubits unitary angle zero DiagonalGate X
  decompose_multi_controlled_rotation).

Implicit Types (self : @ControlledGate BaseGate) (qubits : list Qid).

Lemma eq_false_iff self other : __eq__ self other = false ↔ other ≠ as_gate self.
Proof.
  unfold __eq__, as_gate, _value_equality_values_, num_controls.
  destruct other as [b|sub values shape], self as [s v c]; simpl; [done|].
  rewrite bool_decide_eq_false. naive_solver.
Qed.

Lemma leaves_ops (ops : list (@Operation BaseGate)) : leaves (Ops (Op <$> ops)) = ops.
Proof.
  simpl. induction ops as [|op ops IH]; simpl; [done|].
  f_equal. exact IH.
Qed.

Lemma collect_is_Some (outcomes : list (option (Result (list (@Operation BaseGate))))) :
  Forall is_Some outcomes → is_Some (collect outcomes).
Proof.
  induction 1 as [|outcome outcomes [[ops|err] ->] _ IH]; simpl; [done| |done].
  destruct IH as [[ops'|err] ->]; done.
Qed.


(** The size of the gates of the other classes, and what the collaborators
    have to grant for the recursion of the engine to end: the applications
    of their gates are operations of these gates; controlling an operation
    binds the controls to it; a controlled form of a gate is a gate of
    another class, the generic wrapper, or a controlled gate over a smaller
    gate; the operations of the decomposition of a gate are over smaller
    gates; the flip is a gate of another class; and the operations of the
    synthesis are below the gate that is synthesized. *)
Context (rank : BaseGate → nat).
Hypothesis plain_on_gate :
  ∀ b qs op, plain_on b qs = Ok op → operation_gate op = Plain b.
Hypothesis controlled_by_binds :
  ∀ op controls values,
    controlled_by op controls values = ControlledOperation controls op values.
Hypothesis controlled_form :
  ∀ sub n values shape,
    match controlled sub n values shape with
    | Plain _ => True
    | Controlled sub' values' shape' =>
        (sub', values', shape') = (sub, values, shape) ∨
        (rank (core sub') < rank (core sub))%nat
    end.
Hypothesis decomposition_smaller :
  ∀ g qs ctx tree leaf,
    decompose_once_with_qubits g qs ctx = Value tree → leaf ∈ leaves tree →
    (rank (core (operation_gate leaf)) < rank (core g))%nat.
Hypothesis X_plain : ∀ q, ∃ b, operation_gate (X q) = Plain b.
Hypothesis synthesis_below :
  ∀ g controls target op,
    op ∈ decompose_multi_controlled_rotation (unitary g) controls target →
    below rank g op.

Local Abbreviation again := (redecompose validate_args plain_on controlled
  decompose_once_with_qubits extracting_global_phases controlled_by
  has_unitary num_qubits unitary angle zero DiagonalGate X
  decompose_multi_controlled_rotation).

Lemma core_gate_on g :
  ∀ qs op, apply_gate g qs = Ok op → core (operation_gate op) = core g.
Proof.
  induction g as [b|sub IH values shape]; intros qs op; simpl.
  { intros Hop. by rewrite (plain_on_gate _ _ _ Hop). }
  destruct (decide (length qs = 0%nat)); [done|].
  destruct (validate_args _ _); [|done]. rewrite bind_Ok.
  destruct (gate_on _ _ sub _) as [sub_operation|err] eqn:Hsub; [|done].
  rewrite bind_Ok. intros [= <-]. simpl. by apply (IH _ _ Hsub).
Qed.

Lemma below_core g op :
  (rank (core (operation_gate op)) < rank (core g))%nat → below rank g op.
Proof. unfold below. by destruct (operation_gate op). Qed.

Lemma below_not_self self op :
  below rank (sub_gate self) op → operation_gate op ≠ as_gate self.
Proof.
  unfold below, as_gate. intros Hbelow Heq. rewrite Heq in Hbelow. lia.
Qed.

Lemma brute_force_below self qubits tree leaf :
  brute self qubits = Ok (Value tree) → leaf ∈ leaves tree →
  below rank (sub_gate self) leaf.
Proof.
  unfold brute_force.
  destruct (has_unitary _ && _); [|done].
  destruct (decide (num_qubits (sub_gate self) = 0%nat)).
  - destruct (np.zeros _ _) as [rads|err]; [|done]. rewrite bind_Ok.
    destruct (hot_loop _ _ _ _) as [rads'|err]; [|done]. rewrite bind_Ok.
    destruct (plain_on _ _) as [op|err] eqn:Hop; [|done]. rewrite bind_Ok.
    intros [= <-] ->%list_elem_of_singleton.
    unfold below. by rewrite (plain_on_gate _ _ _ Hop).
  - destruct (control_values self) as [sums|]; [|done].
    destruct (decide (num_qubits (sub_gate self) = 1%nat)); [|done].
    destruct (invert_loop _ _ _ _) as [[invert_ops rest]|err] eqn:Hloop; [|done].
    rewrite bind_Ok. destruct (last qubits) as [target|]; [|done].
    intros [= <-]. rewrite leaves_ops.
    assert (Hflip : leaf ∈ invert_ops → below rank (sub_gate self) leaf).
    { intros Hin.
      destruct (invert_loop_flips X _ _ _ _ _ Hloop leaf Hin)
        as [Hnil|(q & _ & ->)]; [by apply elem_of_nil in Hnil|].
      unfold below. by destruct (X_plain q) as [b ->]. }
    intros [?|[?|?]%elem_of_app]%elem_of_app; [by apply Hflip| |by apply Hflip].
    by eapply synthesis_below.
Qed.

(** Every operation of a decomposition of an entity is below its sub-gate. *)
Lemma decompose_below self qubits context tree leaf :
  decompose self qubits context = Ok (Value tree) → leaf ∈ leaves tree →
  below rank (sub_gate self) leaf.
Proof.
  unfold _decompose_with_context_.
  pose proof (controlled_form (sub_gate self) (num_controls self)
                (control_values self) (control_qid_shape self)) as Hform.
  destruct (__eq__ self _) eqn:Heq; simpl.
  - (* branch 1 is skipped *)
    destruct (decompose_once_with_qubits _ _ _) as [|result] eqn:Hsub.
    { apply brute_force_below. }
    intros [= <-]. rewrite leaves_transform.
    intros (leaf' & -> & Hleaf')%list_elem_of_fmap.
    rewrite controlled_by_binds. unfold below; simpl.
    by eapply decomposition_smaller.
  - (* branch 1 *)
    destruct (gate_on _ _ _ _) as [op|err] eqn:Hop; [|done]. rewrite bind_Ok.
    intros [= <-] ->%list_elem_of_singleton.
    destruct (controlled _ _ _ _) as [b|sub' values' shape'] eqn:Hnative.
    + unfold below. simpl in Hop. by rewrite (plain_on_gate _ _ _ Hop).
    + destruct Hform as [[= -> -> ->]|Hrank].
      * pose proof (eq_as_gate self) as Htrue. unfold as_gate in Htrue.
        congruence.
      * apply below_core. by rewrite (core_gate_on _ _ _ Hop).
Qed.

(** The engine ends on every operation with more fuel than the size of
    the gate under its controls, by two. *)
Lemma redecompose_ends context :
  ∀ fuel op,
    (match operation_gate op with
     | Plain _ => 0
     | Controlled sub _ _ => S (rank (core sub))
     end < fuel)%nat →
    is_Some (again fuel context op).
Proof.
  induction fuel as [|fuel IH]; intros op Hfuel; [lia|]. simpl.
  destruct (operation_gate op) as [b|sub values shape] eqn:Hgate; [done|].
  destruct (_decompose_with_context_ _ _ _ _ _ _ _ _ _ _ _ _ _ _ _ _ _)
    as [[|tree]|err] eqn:Hdecompose; [done| |done].
  apply collect_is_Some, Forall_fmap, Forall_forall. intros leaf Hleaf.
  apply IH.
  pose proof (decompose_below _ _ _ _ _ Hdecompose Hleaf) as Hbelow.
  unfold below in Hbelow. simpl in Hbelow.
  destruct (operation_gate leaf); lia.
Qed.


End redecomposition.

(** ** Diagram information *)

Section diagram.

Context {BaseGate : Type} {LabelMap DiagramExponent : Type}.
Context (gate_circuit_diagram_info :
  @Gate BaseGate → @CircuitDiagramInfoArgs LabelMap →
  option (@CircuitDiagramInfo DiagramExponent)).
Context (control_values_circuit_diagram_info :
  cv.ControlValues → @CircuitDiagramInfo DiagramExponent).

Local Abbreviation diagram_info :=
  (_circuit_diagram_info_ gate_circuit_diagram_info
     control_values_circuit_diagram_info).

Implicit Types (self : @ControlledGate BaseGate).
Implicit Types (args : @CircuitDiagramInfoArgs LabelMap).

(** X14.  The diagram information of an entity is unavailable exactly when
    that of its sub-gate is; otherwise its wire symbols are those of the
    control values followed by those of the sub-gate and its exponent is
    that of the sub-gate.  The sub-gate is asked with the controls taken
    off: when the known qubits are as many as the known count and at least
    as many as the controls, they still are for the sub-gate; when the known
    count is less than the number of controls, the sub-gate is given a
    negative count. *)
Theorem X14_diagram_info self args :
  (diagram_info self args = NotImplemented ↔
   gate_circuit_diagram_info (sub_gate self) (sub_args self args) = None) ∧
  (∀ info, diagram_info self args = Value info →
     ∃ sub_info,
       gate_circuit_diagram_info (sub_gate self) (sub_args self args) = Some sub_info ∧
       wire_symbols info =
         wire_symbols (control_values_circuit_diagram_info (control_values self))
         ++ wire_symbols sub_info ∧
       exponent info = exponent sub_info) ∧
  (∀ qubits,
     known_qubits args = Some qubits →
     known_qubit_count args = Some (Z.of_nat (length qubits)) →
     (num_controls self ≤ length qubits)%nat →
     ∃ rest,
       known_qubits (sub_args self args) = Some rest ∧
       known_qubit_count (sub_args self args) = Some (Z.of_nat (length rest)) ∧
       qubits = take (num_controls self) qubits ++ rest) ∧
  (∀ count,
     known_qubit_count args = Some count →
     count < Z.of_nat (num_controls self) →
     ∃ count', known_qubit_count (sub_args self args) = Some count' ∧ count' < 0).
Proof.
  unfold _circuit_diagram_info_. split_and!.
  - by destruct (gate_circuit_diagram_info _ _).
  - intros info. destruct (gate_circuit_diagram_info _ _) as [sub_info|]; [|done].
    intros [= <-]. by exists sub_info.
  - intros qubits Hq Hc Hle. exists (drop (num_controls self) qubits).
    unfold sub_args. simpl. rewrite Hq, Hc. split_and!; [done| |by rewrite take_drop].
    f_equal. rewrite length_drop. lia.
  - intros count Hc Hlt. unfold sub_args. simpl. rewrite Hc.
    eexists. split; [done|]. lia.
Qed.

End diagram.

(** ** The further properties on the small gate set *)

(** The small gate set grants what the recursion of the engine needs,
    with the halving decomposition of the rotations. *)
Lemma demo_plain_on_gate b qs op :
  Demo.plain_on b qs = Ok op → operation_gate op = Plain b.
Proof. by intros [= <-]. Qed.

Lemma demo_controlled_by_binds op controls values :
  Demo.controlled_by op controls values = ControlledOperation controls op values.
Proof. reflexivity. Qed.

Lemma demo_controlled_form sub n values shape :
  match Demo.controlled sub n values shape with
  | Plain _ => True
  | Controlled sub' values' shape' =>
      (sub', values', shape') = (sub, values, shape) ∨
      (Demo.rank (core sub') < Demo.rank (core sub))%nat
  end.
Proof. unfold Demo.controlled. case_bool_decide; [done|by left]. Qed.

Lemma halving_smaller g qs ctx tree leaf :
  Demo.decompose_halving g qs ctx = Value tree → leaf ∈ leaves tree →
  (Demo.rank (core (operation_gate leaf)) < Demo.rank (core g))%nat.
Proof.
  destruct g as [[]|]; simpl; try done.
  case_bool_decide as Hk; [|done]. intros [= <-]. simpl.
  intros [->|[->|[]%elem_of_nil]%elem_of_cons]%elem_of_cons; simpl;
    Z.div_mod_to_equations; lia.
Qed.

Lemma demo_X_plain q : ∃ b, operation_gate (Demo.X q) = Plain b.
Proof. by eexists. Qed.

Lemma demo_synthesis_below g controls target op :
  op ∈ Demo.decompose_multi_controlled_rotation (Demo.unitary g) controls target →
  below Demo.rank g op.
Proof. by intros ->%list_elem_of_singleton. Qed.


Lemma decompose_into_itself_again fuel :
  Demo.redecompose_with Demo.decompose_into_itself (S fuel) tt
      Demo.rotation_application =
    collect [Demo.redecompose_with Demo.decompose_into_itself fuel tt
               Demo.rotation_application].
Proof.
  assert (Hdecompose :
    Demo.decompose_with Demo.decompose_into_itself Demo.controlled_rotation
      (operation_qubits Demo.rotation_application) tt =
    Ok (Value (Op Demo.rotation_application))) by (vm_compute; reflexivity).
  unfold Demo.redecompose_with. cbn [redecompose].
  change (operation_gate Demo.rotation_application)
    with (as_gate Demo.controlled_rotation).
  cbn [as_gate Demo.controlled_rotation sub_gate control_values control_qid_shape].
  unfold Demo.decompose_with in Hdecompose.
  change {| sub_gate := Plain (Demo.Rotation 3); control_values := _;
            control_qid_shape := _ |} with Demo.controlled_rotation.
  by rewrite Hdecompose.
Qed.


Lemma controlled_rotation_constructed :
  constructed Demo.is_measurement Demo.has_mixture Demo.is_parameterized
    Demo.controlled_rotation.
Proof.
  apply (constructed_plain _ _ _ (Demo.Rotation 3) None None None).
  - exact I.
  - vm_compute. reflexivity.
Qed.

Lemma doubly_controlled_x_constructed :
  constructed Demo.is_measurement Demo.has_mixture Demo.is_parameterized
    Demo.doubly_controlled_x.
Proof.
  apply (constructed_plain _ _ _ Demo.XGate (Some 2) None None).
  - exact I.
  - vm_compute. reflexivity.
Qed.

Lemma X1_construction_invariant_witness :
  Demo.is_measurement (sub_gate Demo.zero_one_controlled) = false ∧
  cv.num_qubits (control_values Demo.zero_one_controlled) =
    num_controls Demo.zero_one_controlled ∧
  ¬ cv.out_of_range (control_values Demo.zero_one_controlled)
      (control_qid_shape Demo.zero_one_controlled).
Proof.
  destruct (X1_construction_invariant Demo.is_measurement Demo.has_mixture
              Demo.is_parameterized Demo.zero_one_controlled
              zero_one_controlled_constructed)
    as (_ & Hmeasurement & _ & Hcount & Hrange & _).
  exact (conj Hmeasurement (conj Hcount Hrange)).
Defined.

Lemma X3_negative_num_controls_witness :
  Demo.construct (Plain Demo.XGate) (Some (-1)) None None = Raise NumQubitsMismatch.
Proof.
  apply (proj2 (X3_negative_num_controls Demo.is_measurement Demo.has_mixture
                  Demo.is_parameterized (Plain Demo.XGate) (-1) None None
                  ltac:(lia))).
  reflexivity.
Defined.

Lemma X4_qid_shape_witness :
  _qid_shape_ Demo.plain_qid_shape Demo.zero_one_controlled =
  [2] ++ qid_shape Demo.plain_qid_shape (as_gate Demo.controlled_rotation).
Proof.
  apply (proj1 (X4_qid_shape Demo.is_measurement Demo.has_mixture
                  Demo.is_parameterized Demo.plain_qid_shape
                  (as_gate Demo.controlled_rotation) None
                  (Some (cv.Sequence [cv.OneValue 0])) None
                  Demo.zero_one_controlled ltac:(vm_compute; reflexivity))).
Defined.

Lemma X5_no_controls_witness :
  Demo.construct (as_gate Demo.zero_one_controlled) (Some 0) None None =
  Ok Demo.zero_one_controlled.
Proof.
  apply (X5_no_controls Demo.is_measurement Demo.has_mixture Demo.is_parameterized
           Demo.zero_one_controlled).
  reflexivity.
Defined.

Lemma X6_two_steps_witness :
  Demo.construct (Plain (Demo.Rotation 3)) None
    (Some (cv.Object (cv.simplify (cv.ProductOfSums [ {[ 0 ]} ])
                      &&& cv.simplify (cv.ProductOfSums [ {[ 1 ]} ]))))
    (Some ([2] ++ [2])) =
  Ok Demo.zero_one_controlled.
Proof.
  apply (X6_two_steps Demo.is_measurement Demo.has_mixture Demo.is_parameterized
           (Plain (Demo.Rotation 3)) (cv.ProductOfSums [ {[ 1 ]} ]) [2]
           (cv.ProductOfSums [ {[ 0 ]} ]) [2]
           Demo.controlled_rotation Demo.zero_one_controlled I I);
    vm_compute; reflexivity.
Defined.

Lemma X8_pow_absorbs_witness :
  ∃ r, __pow__ Demo.is_measurement Demo.has_mixture Demo.is_parameterized
         (λ _ (_ : Z), Value (as_gate Demo.controlled_rotation))
         Demo.zero_one_controlled 2 = Ok (Value r) ∧
       num_controls r = 3%nat.
Proof.
  destruct (X8_pow_absorbs Demo.is_measurement Demo.has_mixture
              Demo.is_parameterized
              (λ _ (_ : Z), Value (as_gate Demo.controlled_rotation))
              Demo.zero_one_controlled 2 Demo.controlled_rotation
              zero_one_controlled_constructed eq_refl eq_refl)
    as (r & Hpow & _ & _ & _ & Hcount).
  exists r. exact (conj Hpow Hcount).
Defined.

Lemma X9_repr_round_trip_witness :
  ∃ (n : option nat) (values : option cv.ControlValues) (shape : option (list Z)),
    __repr__ Demo.gate_repr Demo.control_values_repr Demo.doubly_controlled_x =
      call_text Demo.gate_repr Demo.control_values_repr
        (sub_gate Demo.doubly_controlled_x) n values shape ∧
    Demo.construct (sub_gate Demo.doubly_controlled_x) (Z.of_nat <$> n)
      (cv.Object <$> values) shape = Ok Demo.doubly_controlled_x.
Proof.
  exact (X9_repr_round_trip Demo.is_measurement Demo.has_mixture
           Demo.is_parameterized Demo.gate_repr Demo.control_values_repr
           Demo.doubly_controlled_x doubly_controlled_x_constructed).
Defined.

Lemma X10_unitary_of_application_witness :
  _unitary_ Demo.validate_args Demo.plain_on Demo.for_gate Demo.operation_unitary
    Demo.controlled_rotation = Ok (Value 3).
Proof.
  apply (proj1 (proj1 (X10_unitary_of_application Demo.validate_args Demo.plain_on
                         Demo.for_gate (λ _ (_ : unit), @NotImplemented unit)
                         Demo.operation_unitary (λ _, @NotImplemented unit)
                         Demo.controlled_rotation)
                  (ControlledOperation [Demo.q 0]
                     (GateOperation (Plain (Demo.Rotation 3)) [Demo.q 1])
                     (control_values Demo.controlled_rotation))
                  ltac:(vm_compute; reflexivity))).
Defined.

Lemma X13_controls_distribute_witness :
  ∃ tree,
    _decompose_with_context_ Demo.validate_args Demo.plain_on Demo.controlled
      Demo.decompose_rotation (λ c, c) Demo.controlled_by Demo.has_unitary
      Demo.num_qubits Demo.unitary (λ u : Z, u) 0 Demo.Diagonal Demo.X
      Demo.decompose_multi_controlled_rotation
      Demo.controlled_rotation [Demo.q 0; Demo.q 1] tt = Ok (Value tree) ∧
    length (leaves tree) = 2%nat.
Proof.
  destruct (X13_controls_distribute Demo.validate_args Demo.plain_on
              Demo.controlled Demo.decompose_rotation (λ c, c) Demo.controlled_by
              Demo.has_unitary Demo.num_qubits Demo.unitary (λ u : Z, u) 0
              Demo.Diagonal Demo.X Demo.decompose_multi_controlled_rotation
              Demo.controlled_rotation [Demo.q 0; Demo.q 1] tt
              (Ops [Op (GateOperation (Plain (Demo.Rotation 1)) [Demo.q 1]);
                    Ops [Op (GateOperation (Plain (Demo.Rotation 2)) [Demo.q 1])]])
              ltac:(vm_compute; reflexivity) ltac:(vm_compute; reflexivity))
    as (tree & Hdecompose & _ & Hlength).
  exists tree. exact (conj Hdecompose Hlength).
Defined.

Lemma X14_diagram_info_witness :
  ∃ rest,
    known_qubits
      (sub_args Demo.zero_one_controlled
         {| known_qubit_count := Some 3;
            known_qubits := Some [Demo.q 0; Demo.q 1; Demo.q 2];
            use_unicode_characters := true;
            precision := None;
            label_map := @None unit |}) = Some rest ∧
    [Demo.q 0; Demo.q 1; Demo.q 2] = [Demo.q 0; Demo.q 1] ++ rest.
Proof.
  destruct (proj1 (proj2 (proj2
              (X14_diagram_info (DiagramExponent := Z)
                 (λ _ _, None) (λ _, {| wire_symbols := []; exponent := 1 |})
                 Demo.zero_one_controlled
                 {| known_qubit_count := Some 3;
                    known_qubits := Some [Demo.q 0; Demo.q 1; Demo.q 2];
                    use_unicode_characters := true;
                    precision := None;
                    label_map := @None unit |})))
              [Demo.q 0; Demo.q 1; Demo.q 2] eq_refl eq_refl
              ltac:(unfold num_controls; simpl; lia))
    as (rest & Hrest & _ & Hsplit).
  exists rest. exact (conj Hrest Hsplit).
Defined.

Lemma X16_json_dict_injective_witness :
  Demo.zero_one_controlled =
  {| sub_gate := Plain (Demo.Rotation 3);
     control_values := cv.ProductOfSums [ {[ 0 ]}; {[ 1 ]} ];
     control_qid_shape := [2; 2] |}.
Proof.
  apply X16_json_dict_injective. reflexivity.
Defined.

(** The three printed forms. *)
Example repr_forms :
  __repr__ Demo.gate_repr Demo.control_values_repr Demo.controlled_x =
    "cirq.ControlledGate(sub_gate=cirq.X)" ∧
  __repr__ Demo.gate_repr Demo.control_values_repr Demo.doubly_controlled_x =
    "cirq.ControlledGate(sub_gate=cirq.X, num_controls=2)" ∧
  __repr__ Demo.gate_repr Demo.control_values_repr Demo.zero_one_controlled =
    "cirq.ControlledGate(sub_gate=cirq.rz(3), control_values=cirq.ProductOfSums(...),control_qid_shape=(2, 2))".
Proof. split_and!; vm_compute; reflexivity. Qed.
